(** * Inventory management system: a shallow embedding and its properties

    The development follows [inventory_system.py].  The class [Inventory]
    becomes a record, its methods become computations in a small state and
    exception monad over the pair of the object and the outside world (file
    system, clock, standard output).  Python values are dynamically typed:
    the validators test [isinstance], and [load_data] stores whatever
    [json.load] returns, so the stock is a Python value and every operator
    the methods use is given its run-time behaviour, [TypeError] included.

    What is outside the model: floating-point arithmetic (a float is kept as
    the literal that denotes it and computing with it ends in [OutOfModel]),
    and interpreter resource limits (recursion depth, memory, the bound on
    the number of digits of an integer conversion).  Standard output is a
    sink that takes every string, as [io.StringIO] does: a stream that cannot
    encode a character would make [print] raise.  Text files follow the
    POSIX conventions: a line feed is written as it is.  A path is a name
    that the operating system takes (no null character) and the file
    system is a map from these names, taken as they are written, to what
    they lead to.  [pathlib] is that of Python 3.11 to 3.13, where
    [Path.exists] lets an [OSError] of [stat] through. *)

From Stdlib Require Import ZArith NArith List Bool String Ascii Lia Permutation.
From Stdlib Require Import Strings.Byte.
From Stdlib Require Import DecimalString DecimalZ DecimalN DecimalPos DecimalFacts.
Import ListNotations.

Set Warnings "-register-all".
Local Open Scope Z_scope.

(** ** Python strings *)

(** A Python [str] is a sequence of code points; lone surrogates are allowed,
    as they are in Python. *)
Definition str := list N.

Definition str_eq_dec : forall a b : str, {a = b} + {a <> b} :=
  list_eq_dec N.eq_dec.

(** A string literal of the source, as a [str]. *)
Definition lit (s : string) : str :=
  List.map N_of_ascii (list_ascii_of_string s).


(** [c.isspace()]: the characters that [str.strip()] removes. *)
Definition is_space (c : N) : bool :=
  ((0x09 <=? c) && (c <=? 0x0D) || (0x1C <=? c) && (c <=? 0x20)
   || (c =? 0x85) || (c =? 0xA0) || (c =? 0x1680)
   || (0x2000 <=? c) && (c <=? 0x200A)
   || (c =? 0x2028) || (c =? 0x2029) || (c =? 0x202F) || (c =? 0x205F)
   || (c =? 0x3000))%N.

Fixpoint lstrip (s : str) : str :=
  match s with
  | [] => []
  | c :: s' => if is_space c then lstrip s' else s
  end.

Definition rstrip (s : str) : str := rev (lstrip (rev s)).

(** [s.strip()] *)
Definition strip (s : str) : str := rstrip (lstrip s).

(** [sep.join(l)] *)
Fixpoint join (sep : str) (l : list str) : str :=
  match l with
  | [] => []
  | [x] => x
  | x :: l' => x ++ sep ++ join sep l'
  end.

(** Lexicographic order on code points, the order of [sorted] on [str]. *)
Fixpoint str_ltb (a b : str) : bool :=
  match a, b with
  | _, [] => false
  | [], _ :: _ => true
  | x :: a', y :: b' => (x <? y)%N || (x =? y)%N && str_ltb a' b'
  end.

(** [sub in s] on strings *)
Fixpoint is_prefix (p s : str) : bool :=
  match p, s with
  | [], _ => true
  | _ :: _, [] => false
  | x :: p', y :: s' => (x =? y)%N && is_prefix p' s'
  end.

Fixpoint is_substring (p s : str) : bool :=
  is_prefix p s ||
  match s with
  | [] => false
  | _ :: s' => is_substring p s'
  end.

(** ** Python values *)

(** The values the program handles: what a caller may pass to the methods and
    what [json.load] returns.  The keys of a dictionary are strings, as those
    of every dictionary read from JSON or filled by [add_item] are; a
    dictionary keeps its insertion order. *)
Inductive pyval : Type :=
| PNone
| PBool (b : bool)
| PInt (z : Z)
| PFloat (literal : str)
| PStr (s : str)
| PList (l : list pyval)
| PDict (d : list (str * pyval)).

Definition dict := list (str * pyval).

Fixpoint dict_get (d : dict) (k : str) : option pyval :=
  match d with
  | [] => None
  | (k', v) :: d' => if str_eq_dec k k' then Some v else dict_get d' k
  end.

(** [d[k] = v]: an existing key keeps its place, a new one goes last. *)
Fixpoint dict_set (d : dict) (k : str) (v : pyval) : dict :=
  match d with
  | [] => [(k, v)]
  | (k', v') :: d' =>
      if str_eq_dec k k' then (k', v) :: d' else (k', v') :: dict_set d' k v
  end.

(** [del d[k]] *)
Fixpoint dict_del (d : dict) (k : str) : dict :=
  match d with
  | [] => []
  | (k', v') :: d' =>
      if str_eq_dec k k' then d' else (k', v') :: dict_del d' k
  end.

Definition dict_keys (d : dict) : list str := List.map fst d.

(** A dictionary has each key once. *)
Definition dict_wf (d : dict) : Prop := NoDup (dict_keys d).

(** ** Exceptions and results *)

Inductive exn : Type :=
| OSError (msg : string)            (* with its subclasses *)
| JSONDecodeError                    (* message and position are not kept *)
| UnicodeDecodeError
| UnicodeEncodeError
| TypeError (msg : string)
| AttributeError (msg : string)
| KeyError
| UserError (name : string) (truth : bool).
    (* raised by the caller's own code: the name of the class, and the
       truth value that its [__bool__] or [__len__] gives the object *)

(** [bool(exc)]: an exception is true unless its class says otherwise. *)
Definition exn_bool (e : exn) : bool :=
  match e with
  | UserError _ truth => truth
  | _ => true
  end.

Inductive result (A : Type) : Type :=
| Returned (a : A)
| Raised (e : exn)
| OutOfModel.

Arguments Returned {A} a.
Arguments Raised {A} e.
Arguments OutOfModel {A}.

(** ** Formatted strings *)

(** An f-string is kept as the list of its parts: [Repr v] stands for
    [{v!r}], [Fmt v] for [{v}] and [FmtExc e] for [{exc}]. *)
Inductive frag : Type :=
| Lit (s : str)
| Repr (v : pyval)
| Fmt (v : pyval)
| FmtExc (e : exn).

Definition fstring := list frag.

Definition T (s : string) : frag := Lit (lit s).

(** ** Operators of the Python run time *)

Definition isinstance_str (v : pyval) : bool :=
  match v with PStr _ => true | _ => false end.

(** [bool] is a subclass of [int]: [True] is an instance of [int]. *)
Definition isinstance_int (v : pyval) : bool :=
  match v with PInt _ | PBool _ => true | _ => false end.

(** The integer an instance of [int] stands for. *)
Definition int_value (v : pyval) : option Z :=
  match v with
  | PInt z => Some z
  | PBool b => Some (Z.b2z b)
  | _ => None
  end.

Inductive num : Type := NumInt (z : Z) | NumFloat | NotNum.

Definition as_num (v : pyval) : num :=
  match v with
  | PInt z => NumInt z
  | PBool b => NumInt (Z.b2z b)
  | PFloat _ => NumFloat
  | _ => NotNum
  end.

(** [bool(v)] *)
Definition py_bool (v : pyval) : result bool :=
  match v with
  | PNone => Returned false
  | PBool b => Returned b
  | PInt z => Returned (negb (z =? 0))
  | PFloat _ => OutOfModel
  | PStr s => Returned (match s with [] => false | _ => true end)
  | PList l => Returned (match l with [] => false | _ => true end)
  | PDict d => Returned (match d with [] => false | _ => true end)
  end.

(** [a + b] *)
Definition py_add (a b : pyval) : result pyval :=
  match a, b with
  | PStr x, PStr y => Returned (PStr (x ++ y))
  | PList x, PList y => Returned (PList (x ++ y))
  | _, _ =>
      match as_num a, as_num b with
      | NumInt x, NumInt y => Returned (PInt (x + y))
      | NotNum, _ | _, NotNum =>
          Raised (TypeError "unsupported operand type(s) for +")
      | _, _ => OutOfModel
      end
  end.

(** [a - b] *)
Definition py_sub (a b : pyval) : result pyval :=
  match as_num a, as_num b with
  | NumInt x, NumInt y => Returned (PInt (x - y))
  | NotNum, _ | _, NotNum =>
      Raised (TypeError "unsupported operand type(s) for -")
  | _, _ => OutOfModel
  end.

(** [v <= n] and [v < n] for an integer [n] *)
Definition py_le_int (v : pyval) (n : Z) : result bool :=
  match as_num v with
  | NumInt x => Returned (x <=? n)
  | NumFloat => OutOfModel
  | NotNum => Raised (TypeError "'<=' not supported")
  end.

Definition py_lt_int (v : pyval) (n : Z) : result bool :=
  match as_num v with
  | NumInt x => Returned (x <? n)
  | NumFloat => OutOfModel
  | NotNum => Raised (TypeError "'<' not supported")
  end.

(** [obj.get(key, default)]: only a dictionary has the method; a list or a
    dictionary is not hashable; a hashable key that is not a string is never
    one of the keys. *)
Definition py_get (obj key default : pyval) : result pyval :=
  match obj with
  | PDict d =>
      match key with
      | PStr k =>
          Returned (match dict_get d k with Some v => v | None => default end)
      | PList _ | PDict _ => Raised (TypeError "unhashable type")
      | _ => Returned default
      end
  | _ => Raised (AttributeError "object has no attribute 'get'")
  end.

(** [key in obj].  Membership in a list compares with [==]; it is given for a
    string [key], the case [remove_item] reaches. *)
Definition py_contains (obj key : pyval) : result bool :=
  match obj with
  | PDict d =>
      match key with
      | PStr k =>
          Returned (match dict_get d k with Some _ => true | None => false end)
      | PList _ | PDict _ => Raised (TypeError "unhashable type")
      | _ => Returned false
      end
  | PList l =>
      match key with
      | PStr k =>
          Returned (existsb (fun e => match e with
                                      | PStr s => if str_eq_dec k s then true else false
                                      | _ => false
                                      end) l)
      | _ => OutOfModel
      end
  | PStr s =>
      match key with
      | PStr k => Returned (is_substring k s)
      | _ => Raised (TypeError "'in <string>' requires string as left operand")
      end
  | _ => Raised (TypeError "argument is not iterable")
  end.

(** [obj[key]] for a string [key] *)
Definition py_getitem (obj key : pyval) : result pyval :=
  match obj with
  | PDict d =>
      match key with
      | PStr k =>
          match dict_get d k with
          | Some v => Returned v
          | None => Raised KeyError
          end
      | PList _ | PDict _ => Raised (TypeError "unhashable type")
      | _ => Raised KeyError
      end
  | PList _ | PStr _ =>
      match key with
      | PInt _ | PBool _ => OutOfModel
      | _ => Raised (TypeError "indices must be integers")
      end
  | _ => Raised (TypeError "object is not subscriptable")
  end.

(** [obj[key] = v]: the new object.  *)
Definition py_setitem (obj key v : pyval) : result pyval :=
  match obj with
  | PDict d =>
      match key with
      | PStr k => Returned (PDict (dict_set d k v))
      | PList _ | PDict _ => Raised (TypeError "unhashable type")
      | _ => OutOfModel
      end
  | PList _ =>
      match key with
      | PInt _ | PBool _ => OutOfModel
      | _ => Raised (TypeError "list indices must be integers")
      end
  | _ => Raised (TypeError "object does not support item assignment")
  end.

(** [del obj[key]] *)
Definition py_delitem (obj key : pyval) : result pyval :=
  match obj with
  | PDict d =>
      match key with
      | PStr k =>
          match dict_get d k with
          | Some _ => Returned (PDict (dict_del d k))
          | None => Raised KeyError
          end
      | PList _ | PDict _ => Raised (TypeError "unhashable type")
      | _ => Raised KeyError
      end
  | PList _ =>
      match key with
      | PInt _ | PBool _ => OutOfModel
      | _ => Raised (TypeError "list indices must be integers")
      end
  | _ => Raised (TypeError "object does not support item deletion")
  end.

(** ** Paths *)

(** [text.split("/")] *)
Fixpoint split_sep (text : str) : list str :=
  match text with
  | [] => [[]]
  | c :: text' =>
      if (c =? 0x2F)%N then [] :: split_sep text'
      else match split_sep text' with
           | part :: parts => (c :: part) :: parts
           | [] => [[c]]
           end
  end.

(** [text.lstrip("/")] *)
Fixpoint lstrip_sep (text : str) : str :=
  match text with
  | c :: text' => if (c =? 0x2F)%N then lstrip_sep text' else text
  | [] => []
  end.

(** The root of a POSIX path and what follows it: exactly two slashes at
    the start are kept, any other number of them is one slash. *)
Definition splitroot (part : str) : str * str :=
  let stripped := lstrip_sep part in
  match (List.length part - List.length stripped)%nat with
  | O => ([], part)
  | 2%nat => (lit "//", stripped)
  | _ => (lit "/", stripped)
  end.

(** The components of a path: the empty ones and [.] are left out. *)
Definition parse_parts (text : str) : str * list str :=
  let (root, rel) := splitroot text in
  (root,
   filter (fun x => match x with
                    | [] => false
                    | [c] => negb (c =? 0x2E)%N
                    | _ => true
                    end) (split_sep rel)).

(** [str(PurePosixPath(text))] *)
Definition path_text (text : str) : str :=
  let (root, parts) := parse_parts text in
  match root ++ join (lit "/") parts with
  | [] => lit "."
  | t => t
  end.

(** What [Path(...)] is given: a [str], or a path, which is kept as it is.
    The text of a path stands for the path: where a method expects the
    argument of [Path] and is given the [file] of an object, that is a
    path. *)
Inductive pathlike : Type :=
| AsStr (text : str)
| AsPath (text : str).

Coercion AsPath : str >-> pathlike.

(** [Path(file)], as its text. *)
Definition Path (file : pathlike) : str :=
  match file with
  | AsStr text => path_text text
  | AsPath text => text
  end.

(** ** The outside world *)

(** What a path of the file system leads to.  A file that does not exist can
    be created or not (a missing or read-only directory).  A path is out of
    reach when the system refuses to look at it: a directory on the way
    cannot be searched, or the name is too long; [stat] and [open] then fail
    with an [OSError] that is not [FileNotFoundError]. *)
Inductive node : Type :=
| Missing (creatable : bool)
| Regular (content : list byte) (readable writable : bool)
| Directory
| Unreachable (error : string).

(** The world: the file system, the number of bytes a write may store before
    the device is full ([None]: no bound), the clock (the formatted time of
    the [tick]-th reading) and what was printed. *)
Record World : Type := mkWorld {
  fs : str -> node;
  write_limit : option nat;
  tick : nat;
  clock : nat -> str;
  stdout : list fstring
}.

(** ** The class [Inventory] *)

Record Inventory : Type := mkInventory {
  file : str;
  stock_data : pyval;
  logs : list fstring
}.

Definition Sys : Type := Inventory * World.

(** A method: from the object and the world to a result and their new
    state.  What was changed before an exception stays changed. *)
Definition M (A : Type) : Type := Sys -> result A * Sys.

Definition ret {A} (a : A) : M A := fun s => (Returned a, s).

Definition bind {A B} (c : M A) (k : A -> M B) : M B :=
  fun s =>
    match c s with
    | (Returned a, s') => k a s'
    | (Raised e, s') => (Raised e, s')
    | (OutOfModel, s') => (OutOfModel, s')
    end.

Notation "x <- c ;; k" := (bind c (fun x => k))
  (at level 61, c at next level, right associativity).
Notation "c ;;; k" := (bind c (fun _ => k))
  (at level 61, right associativity).

(** The result of an operator, as a step of a method. *)
Definition lift {A} (r : result A) : M A := fun s => (r, s).

Definition get_stock : M pyval := fun s => (Returned (stock_data (fst s)), s).

Definition set_stock (v : pyval) : M unit :=
  fun '(self, w) =>
    (Returned tt, (mkInventory (file self) v (logs self), w)).

Definition get_file : M str := fun s => (Returned (file (fst s)), s).

(** [print(line)] *)
Definition print (line : fstring) : M unit :=
  fun '(self, w) =>
    (Returned tt,
     (self, mkWorld (fs w) (write_limit w) (tick w) (clock w)
                    (stdout w ++ [line]))).

(** [datetime.now().strftime("%Y-%m-%d %H:%M:%S")] *)
Definition now : M str :=
  fun '(self, w) =>
    (Returned (clock w (tick w)),
     (self, mkWorld (fs w) (write_limit w) (S (tick w)) (clock w) (stdout w))).

Definition logs_append (entry : fstring) : M unit :=
  fun '(self, w) =>
    (Returned tt,
     (mkInventory (file self) (stock_data self) (logs self ++ [entry]), w)).

(** Add a timestamped log entry and print it. *)
Definition _log (message : fstring) : M unit :=
  timestamp <- now ;;
  let entry := Lit timestamp :: T " - " :: message in
  logs_append entry ;;;
  print entry.

(** Validate that an item name is a non-empty string. *)
Definition _validate_item (item : pyval) : M bool :=
  if negb (isinstance_str item)
     || negb (match item with
              | PStr s => match strip s with [] => false | _ => true end
              | _ => false
              end)
  then _log [T "Invalid item name: "; Repr item] ;;; ret false
  else ret true.

(** Validate that a quantity is a positive integer. *)
Definition _validate_qty (qty : pyval) : M bool :=
  if negb (isinstance_int qty)
     || match int_value qty with Some z => z <=? 0 | None => false end
  then _log [T "Invalid quantity: "; Repr qty;
             T ". Must be a positive integer."] ;;; ret false
  else ret true.

(** [self._validate_item(item) and self._validate_qty(qty)]: the quantity is
    not looked at when the name is refused. *)
Definition validate (item qty : pyval) : M bool :=
  ok <- _validate_item item ;;
  if ok then _validate_qty qty else ret false.

(** Add quantity of an item to the inventory. *)
Definition add_item (item qty : pyval) : M unit :=
  ok <- validate item qty ;;
  if negb ok then ret tt else
  stock <- get_stock ;;
  cur <- lift (py_get stock item (PInt 0)) ;;
  total <- lift (py_add cur qty) ;;
  stock' <- lift (py_setitem stock item total) ;;
  set_stock stock' ;;;
  v <- lift (py_getitem stock' item) ;;
  _log [T "Added "; Fmt qty; T " of '"; Fmt item; T "'. Total: "; Fmt v].

(** Remove quantity of an item from inventory. *)
Definition remove_item (item qty : pyval) : M unit :=
  ok <- validate item qty ;;
  if negb ok then ret tt else
  stock <- get_stock ;;
  present <- lift (py_contains stock item) ;;
  if negb present then
    _log [T "Item '"; Fmt item; T "' not found in inventory."]
  else
  cur <- lift (py_getitem stock item) ;;
  rest <- lift (py_sub cur qty) ;;
  stock' <- lift (py_setitem stock item rest) ;;
  set_stock stock' ;;;
  v <- lift (py_getitem stock' item) ;;
  out <- lift (py_le_int v 0) ;;
  if out then
    stock'' <- lift (py_delitem stock' item) ;;
    set_stock stock'' ;;;
    _log [T "'"; Fmt item; T "' removed from inventory (out of stock)."]
  else
    v' <- lift (py_getitem stock' item) ;;
    _log [T "Removed "; Fmt qty; T " of '"; Fmt item; T "'. Remaining: ";
          Fmt v'].

(** Return the quantity of an item. *)
Definition get_qty (item : pyval) : M pyval :=
  stock <- get_stock ;;
  lift (py_get stock item (PInt 0)).

(** [[item for item, qty in d.items() if qty < threshold]] *)
Fixpoint low_items (d : dict) (threshold : Z) : result (list str) :=
  match d with
  | [] => Returned []
  | (item, qty) :: d' =>
      match py_lt_int qty threshold with
      | Returned b =>
          match low_items d' threshold with
          | Returned l => Returned (if b then item :: l else l)
          | Raised e => Raised e
          | OutOfModel => OutOfModel
          end
      | Raised e => Raised e
      | OutOfModel => OutOfModel
      end
  end.

Definition default_threshold : Z := 5.

(** Return items with quantity below a given threshold. *)
Definition check_low_items (threshold : Z) : M (list str) :=
  stock <- get_stock ;;
  low <- lift (match stock with
               | PDict d => low_items d threshold
               | _ => Raised (AttributeError "object has no attribute 'items'")
               end) ;;
  (match low with
   | _ :: _ => _log [T "Low stock items: "; Lit (join (lit ", ") low)]
   | [] => _log [T "No low-stock items detected."]
   end) ;;;
  ret low.

Definition print_line (item : str) (qty : pyval) : fstring :=
  [Lit item; T ": "; Fmt qty].

(** ** Text files: UTF-8 and newlines *)

Local Open Scope N_scope.

Definition is_cont (b : N) : bool := (0x80 <=? b) && (b <=? 0xBF).

(** The strict UTF-8 decoder of [open(..., encoding="utf-8")]: overlong
    forms, surrogates and values above 0x10FFFF are errors. *)
Fixpoint utf8_decode (bs : list N) : option str :=
  match bs with
  | [] => Some []
  | b0 :: r0 =>
      if b0 <? 0x80 then option_map (cons b0) (utf8_decode r0) else
      match r0 with
      | [] => None
      | b1 :: r1 =>
          if (0xC2 <=? b0) && (b0 <=? 0xDF) then
            if is_cont b1
            then option_map (cons ((b0 - 0xC0) * 64 + (b1 - 0x80)))
                            (utf8_decode r1)
            else None
          else
          match r1 with
          | [] => None
          | b2 :: r2 =>
              if (0xE0 <=? b0) && (b0 <=? 0xEF) then
                if ((if b0 =? 0xE0 then 0xA0 else 0x80) <=? b1)
                   && (b1 <=? (if b0 =? 0xED then 0x9F else 0xBF))
                   && is_cont b2
                then option_map
                       (cons ((b0 - 0xE0) * 4096 + (b1 - 0x80) * 64
                              + (b2 - 0x80)))
                       (utf8_decode r2)
                else None
              else
              match r2 with
              | [] => None
              | b3 :: r3 =>
                  if (0xF0 <=? b0) && (b0 <=? 0xF4)
                     && ((if b0 =? 0xF0 then 0x90 else 0x80) <=? b1)
                     && (b1 <=? (if b0 =? 0xF4 then 0x8F else 0xBF))
                     && is_cont b2 && is_cont b3
                  then option_map
                         (cons ((b0 - 0xF0) * 262144 + (b1 - 0x80) * 4096
                                + (b2 - 0x80) * 64 + (b3 - 0x80)))
                         (utf8_decode r3)
                  else None
              end
          end
      end
  end.

Definition is_surrogate (c : N) : bool := (0xD800 <=? c) && (c <=? 0xDFFF).

Definition utf8_encode_char (c : N) : option (list N) :=
  if c <? 0x80 then Some [c]
  else if c <? 0x800 then Some [0xC0 + c / 64; 0x80 + c mod 64]
  else if c <? 0x10000 then
    if is_surrogate c then None
    else Some [0xE0 + c / 4096; 0x80 + (c / 64) mod 64; 0x80 + c mod 64]
  else if c <? 0x110000 then
    Some [0xF0 + c / 262144; 0x80 + (c / 4096) mod 64;
          0x80 + (c / 64) mod 64; 0x80 + c mod 64]
  else None.

Fixpoint utf8_encode (s : str) : option (list N) :=
  match s with
  | [] => Some []
  | c :: s' =>
      match utf8_encode_char c, utf8_encode s' with
      | Some bs, Some r => Some (bs ++ r)
      | _, _ => None
      end
  end.

Fixpoint to_bytes (l : list N) : option (list byte) :=
  match l with
  | [] => Some []
  | n :: l' =>
      match Byte.of_N n, to_bytes l' with
      | Some b, Some r => Some (b :: r)
      | _, _ => None
      end
  end.

(** Reading in text mode with [newline=None]: a carriage return, with the
    line feed after it if there is one, is read as one line feed. *)
Fixpoint universal_newlines (s : str) : str :=
  match s with
  | [] => []
  | c :: s' =>
      if c =? 0x0D then
        0x0A :: match s' with
                | [] => []
                | c' :: s'' =>
                    if c' =? 0x0A then universal_newlines s''
                    else universal_newlines s'
                end
      else c :: universal_newlines s'
  end.

(** ** [json.dump] *)

Definition hex_digit (n : N) : N := if n <? 10 then 0x30 + n else 0x57 + n.

(** ['{0:04x}'.format(n)] for [n < 0x10000] *)
Definition hex4 (n : N) : str :=
  [hex_digit (n / 4096 mod 16); hex_digit (n / 256 mod 16);
   hex_digit (n / 16 mod 16); hex_digit (n mod 16)].

Definition backslash_u (n : N) : str := 0x5C :: 0x75 :: hex4 n.

(** One character of a string under [ensure_ascii]. *)
Definition escape_char (c : N) : str :=
  if c =? 0x5C then [0x5C; 0x5C]
  else if c =? 0x22 then [0x5C; 0x22]
  else if c =? 0x08 then [0x5C; 0x62]
  else if c =? 0x0C then [0x5C; 0x66]
  else if c =? 0x0A then [0x5C; 0x6E]
  else if c =? 0x0D then [0x5C; 0x72]
  else if c =? 0x09 then [0x5C; 0x74]
  else if (0x20 <=? c) && (c <=? 0x7E) then [c]
  else if c <? 0x10000 then backslash_u c
  else
    let n := c - 0x10000 in
    backslash_u (N.lor 0xD800 (N.land (N.shiftr n 10) 0x3FF))
    ++ backslash_u (N.lor 0xDC00 (N.land n 0x3FF)).

Definition encode_basestring_ascii (s : str) : str :=
  0x22 :: flat_map escape_char s ++ [0x22].

(** [int.__repr__] *)
Definition int_repr (z : Z) : str :=
  lit (NilEmpty.string_of_int (Z.to_int z)).

(** [sorted] on the items of a dictionary: the keys are all different, so
    the key alone decides. *)
Fixpoint insert_item {A} (x : str * A) (l : list (str * A)) : list (str * A) :=
  match l with
  | [] => [x]
  | y :: l' => if str_ltb (fst y) (fst x) then y :: insert_item x l'
               else x :: l
  end.

Fixpoint sort_items {A} (l : list (str * A)) : list (str * A) :=
  match l with
  | [] => []
  | x :: l' => insert_item x (sort_items l')
  end.

Definition newline_indent (level : nat) : str :=
  0x0A :: repeat 0x20 (4 * level)%nat.

Definition item_separator (level : nat) : str :=
  0x2C :: newline_indent level.

Definition key_separator : str := [0x3A; 0x20].

(** [f] on every element, when it succeeds on all. *)
Definition traverse {A B} (f : A -> option B) : list A -> option (list B) :=
  fix go (l : list A) : option (list B) :=
    match l with
    | [] => Some []
    | x :: l' =>
        match f x, go l' with
        | Some y, Some ys => Some (y :: ys)
        | _, _ => None
        end
    end.

Definition with_key {A B} (f : A -> option B) (kv : str * A) : option (str * B) :=
  match f (snd kv) with
  | Some t => Some (fst kv, t)
  | None => None
  end.

(** One item of an object: the key, the separator and the value. *)
Definition item_text (kt : str * str) : str :=
  encode_basestring_ascii (fst kt) ++ key_separator ++ snd kt.

(** The text [json.dump(v, f, indent=4, sort_keys=True)] writes; [level] is
    the current indentation level.  [None]: the value holds a float. *)
Fixpoint encode (level : nat) (v : pyval) {struct v} : option str :=
  match v with
  | PNone => Some (lit "null")
  | PBool true => Some (lit "true")
  | PBool false => Some (lit "false")
  | PInt z => Some (int_repr z)
  | PFloat _ => None
  | PStr s => Some (encode_basestring_ascii s)
  | PList l =>
      match l with
      | [] => Some (lit "[]")
      | _ =>
          match traverse (encode (S level)) l with
          | Some ts =>
              Some (0x5B :: newline_indent (S level)
                    ++ join (item_separator (S level)) ts
                    ++ newline_indent level ++ [0x5D])
          | None => None
          end
      end
  | PDict d =>
      match d with
      | [] => Some (lit "{}")
      | _ =>
          match traverse (with_key (encode (S level))) d with
          | Some ts =>
              Some (0x7B :: newline_indent (S level)
                    ++ join (item_separator (S level))
                         (List.map item_text (sort_items ts))
                    ++ newline_indent level ++ [0x7D])
          | None => None
          end
      end
  end.

Definition json_dumps (v : pyval) : option str := encode 0 v.

(** ** [json.load] *)

(** The decoder is given as a lexer followed by a pushdown recogniser that
    builds the value; it accepts the documents [json.loads] accepts and
    builds the same objects. *)
Inductive token : Type :=
| TLBrace | TRBrace | TLBracket | TRBracket | TColon | TComma
| TString (s : str)
| TInt (z : Z)
| TFloat (literal : str)
| TTrue | TFalse | TNull
| TNaN | TInfinity | TNegInfinity.

Definition is_json_ws (c : N) : bool :=
  (c =? 0x20) || (c =? 0x09) || (c =? 0x0A) || (c =? 0x0D).

Definition is_digit (c : N) : bool := (0x30 <=? c) && (c <=? 0x39).

Definition unhex (c : N) : option N :=
  if is_digit c then Some (c - 0x30)
  else if (0x61 <=? c) && (c <=? 0x66) then Some (c - 0x57)
  else if (0x41 <=? c) && (c <=? 0x46) then Some (c - 0x37)
  else None.

Definition unhex4 (h1 h2 h3 h4 : N) : option N :=
  match unhex h1, unhex h2, unhex h3, unhex h4 with
  | Some a, Some b, Some c, Some d => Some (a * 4096 + b * 256 + c * 16 + d)
  | _, _, _, _ => None
  end.

(** The character after a backslash, [u] apart. *)
Definition unescape (e : N) : option N :=
  if e =? 0x22 then Some 0x22
  else if e =? 0x5C then Some 0x5C
  else if e =? 0x2F then Some 0x2F
  else if e =? 0x62 then Some 0x08
  else if e =? 0x66 then Some 0x0C
  else if e =? 0x6E then Some 0x0A
  else if e =? 0x72 then Some 0x0D
  else if e =? 0x74 then Some 0x09
  else None.

Definition is_high_surrogate (c : N) : bool := (0xD800 <=? c) && (c <=? 0xDBFF).
Definition is_low_surrogate (c : N) : bool := (0xDC00 <=? c) && (c <=? 0xDFFF).

Definition more (c : N) (n : nat) (r : option (str * nat)) : option (str * nat) :=
  match r with
  | Some (v, k) => Some (c :: v, (n + k)%nat)
  | None => None
  end.

(** [scanstring] in strict mode, from the character after the opening quote:
    the string and the number of characters read, closing quote included.  A
    high surrogate escape followed by a low surrogate escape is one
    character. *)
Fixpoint scanstring (s : str) : option (str * nat) :=
  match s with
  | [] => None
  | c :: s1 =>
      if c =? 0x22 then Some ([], 1%nat)
      else if c =? 0x5C then
        match s1 with
        | [] => None
        | e :: s2 =>
            if e =? 0x75 then
              match s2 with
              | h1 :: h2 :: h3 :: h4 :: s3 =>
                  match unhex4 h1 h2 h3 h4 with
                  | None => None
                  | Some uni =>
                      if is_high_surrogate uni then
                        match s3 with
                        | b :: u :: s4 =>
                            if (b =? 0x5C) && (u =? 0x75) then
                              match s4 with
                              | g1 :: g2 :: g3 :: g4 :: s5 =>
                                  match unhex4 g1 g2 g3 g4 with
                                  | None => None
                                  | Some uni2 =>
                                      if is_low_surrogate uni2 then
                                        more (0x10000
                                              + N.lor (N.shiftl (uni - 0xD800) 10)
                                                      (uni2 - 0xDC00))
                                             12 (scanstring s5)
                                      else more uni 6 (scanstring s3)
                                  end
                              | _ => None
                              end
                            else more uni 6 (scanstring s3)
                        | _ => more uni 6 (scanstring s3)
                        end
                      else more uni 6 (scanstring s3)
                  end
              | _ => None
              end
            else
              match unescape e with
              | Some c' => more c' 2 (scanstring s2)
              | None => None
              end
        end
      else if c <? 0x20 then None
      else more c 1 (scanstring s1)
  end.

Fixpoint span_digits (s : str) : str :=
  match s with
  | [] => []
  | c :: s' => if is_digit c then c :: span_digits s' else []
  end.

(** [int(text)] for a run of decimal digits *)
Definition digits_value (ds : str) : Z :=
  match NilEmpty.uint_of_string (string_of_list_ascii (List.map ascii_of_N ds)) with
  | Some d => Z.of_uint d
  | None => 0%Z
  end.

(** The longest match of the number pattern at the head of [s]: an optional
    minus sign, then a zero or a run of digits that does not start with a
    zero, then an optional fraction (a dot and digits) and an optional
    exponent (e or E, an optional sign, digits).  The token is an integer
    when there is neither fraction nor exponent. *)
Definition lex_number (s : str) : option (token * nat) :=
  let sign := match s with
              | c :: _ => if c =? 0x2D then [c] else []
              | [] => []
              end in
  let s1 := skipn (List.length sign) s in
  let int_part := match span_digits s1 with
                  | d :: ds => if d =? 0x30 then [d] else d :: ds
                  | [] => []
                  end in
  match int_part with
  | [] => None
  | _ =>
      let s2 := skipn (List.length int_part) s1 in
      let frac := match s2 with
                  | c :: s3 =>
                      if c =? 0x2E then
                        match span_digits s3 with
                        | [] => []
                        | ds => c :: ds
                        end
                      else []
                  | [] => []
                  end in
      let s4 := skipn (List.length frac) s2 in
      let exp := match s4 with
                 | c :: s5 =>
                     if (c =? 0x65) || (c =? 0x45) then
                       let sg := match s5 with
                                 | c' :: _ =>
                                     if (c' =? 0x2B) || (c' =? 0x2D) then [c']
                                     else []
                                 | [] => []
                                 end in
                       match span_digits (skipn (List.length sg) s5) with
                       | [] => []
                       | ds => c :: sg ++ ds
                       end
                     else []
                 | [] => []
                 end in
      let text := sign ++ int_part ++ frac ++ exp in
      match frac, exp with
      | [], [] =>
          Some (TInt (match sign with
                      | [] => digits_value int_part
                      | _ => - digits_value int_part
                      end)%Z, List.length text)
      | _, _ => Some (TFloat text, List.length text)
      end
  end.

(** What is read at the head of [s]: a token, or nothing for white space,
    and the number of characters it takes. *)
Definition lex (s : str) : option (option token * nat) :=
  match s with
  | [] => None
  | c :: s' =>
      if is_json_ws c then Some (None, 1%nat)
      else if c =? 0x7B then Some (Some TLBrace, 1%nat)
      else if c =? 0x7D then Some (Some TRBrace, 1%nat)
      else if c =? 0x5B then Some (Some TLBracket, 1%nat)
      else if c =? 0x5D then Some (Some TRBracket, 1%nat)
      else if c =? 0x3A then Some (Some TColon, 1%nat)
      else if c =? 0x2C then Some (Some TComma, 1%nat)
      else if c =? 0x22 then
        match scanstring s' with
        | Some (v, n) => Some (Some (TString v), S n)
        | None => None
        end
      else if is_prefix (lit "null") s then Some (Some TNull, 4%nat)
      else if is_prefix (lit "true") s then Some (Some TTrue, 4%nat)
      else if is_prefix (lit "false") s then Some (Some TFalse, 5%nat)
      else
        match lex_number s with
        | Some (t, n) => Some (Some t, n)
        | None =>
            if is_prefix (lit "NaN") s then Some (Some TNaN, 3%nat)
            else if is_prefix (lit "Infinity") s then Some (Some TInfinity, 8%nat)
            else if is_prefix (lit "-Infinity") s
            then Some (Some TNegInfinity, 9%nat)
            else None
        end
  end.

(** The tokens of a text; [skip] characters are still part of the token read
    last.  [None]: some character starts no token. *)
Fixpoint tokens_from (skip : nat) (s : str) : option (list token) :=
  match s with
  | [] => Some []
  | c :: s' =>
      match skip with
      | S k => tokens_from k s'
      | O =>
          match lex s with
          | None => None
          | Some (t, n) =>
              match tokens_from (pred n) s' with
              | None => None
              | Some ts =>
                  Some (match t with Some t' => t' :: ts | None => ts end)
              end
          end
      end
  end.

Definition tokenize (s : str) : option (list token) := tokens_from 0 s.

Local Close Scope N_scope.

(** Where the recogniser stands: inside a list with the elements read so
    far, inside an object with the pairs read so far, or inside an object
    after a key. *)
Inductive frame : Type :=
| FList (acc : list pyval)
| FDict (acc : dict)
| FKey (acc : dict) (key : str).

(** What may come next. *)
Inductive mode : Type :=
| MValue          (* a value *)
| MFirstElement   (* after an opening bracket: a value or the closing one *)
| MFirstKey       (* after an opening brace: a key or the closing one *)
| MKey            (* after a comma in an object: a key *)
| MColon          (* after a key *)
| MNext           (* after a value in a list or an object *)
| MDone (v : pyval).

(** A finished value goes to the enclosing list or object; a repeated key
    keeps its first place and takes the last value, as [dict(pairs)] does. *)
Definition deliver (v : pyval) (st : list frame) : option (mode * list frame) :=
  match st with
  | [] => Some (MDone v, [])
  | FList acc :: st' => Some (MNext, FList (acc ++ [v]) :: st')
  | FKey acc k :: st' => Some (MNext, FDict (dict_set acc k v) :: st')
  | FDict _ :: _ => None
  end.

Definition scalar (t : token) : option pyval :=
  match t with
  | TString s => Some (PStr s)
  | TInt z => Some (PInt z)
  | TFloat l => Some (PFloat l)
  | TTrue => Some (PBool true)
  | TFalse => Some (PBool false)
  | TNull => Some PNone
  | TNaN => Some (PFloat (lit "NaN"))
  | TInfinity => Some (PFloat (lit "Infinity"))
  | TNegInfinity => Some (PFloat (lit "-Infinity"))
  | _ => None
  end.

Definition start_value (t : token) (st : list frame) : option (mode * list frame) :=
  match t with
  | TLBracket => Some (MFirstElement, FList [] :: st)
  | TLBrace => Some (MFirstKey, FDict [] :: st)
  | _ => match scalar t with
         | Some v => deliver v st
         | None => None
         end
  end.

Definition step (m : mode) (st : list frame) (t : token)
  : option (mode * list frame) :=
  match m with
  | MValue => start_value t st
  | MFirstElement =>
      match t, st with
      | TRBracket, FList acc :: st' => deliver (PList acc) st'
      | _, _ => start_value t st
      end
  | MFirstKey =>
      match t, st with
      | TString k, FDict acc :: st' => Some (MColon, FKey acc k :: st')
      | TRBrace, FDict acc :: st' => deliver (PDict acc) st'
      | _, _ => None
      end
  | MKey =>
      match t, st with
      | TString k, FDict acc :: st' => Some (MColon, FKey acc k :: st')
      | _, _ => None
      end
  | MColon =>
      match t with
      | TColon => Some (MValue, st)
      | _ => None
      end
  | MNext =>
      match t, st with
      | TComma, FList _ :: _ => Some (MValue, st)
      | TRBracket, FList acc :: st' => deliver (PList acc) st'
      | TComma, FDict _ :: _ => Some (MKey, st)
      | TRBrace, FDict acc :: st' => deliver (PDict acc) st'
      | _, _ => None
      end
  | MDone _ => None
  end.

Fixpoint parse_tokens (ts : list token) (m : mode) (st : list frame)
  : option pyval :=
  match ts with
  | [] => match m with MDone v => Some v | _ => None end
  | t :: ts' =>
      match step m st t with
      | Some (m', st') => parse_tokens ts' m' st'
      | None => None
      end
  end.

(** [json.loads(s)] for a [str]: a leading byte order mark is refused. *)
Definition json_loads (s : str) : result pyval :=
  match s with
  | 0xFEFF%N :: _ => Raised JSONDecodeError
  | _ =>
      match tokenize s with
      | Some ts =>
          match parse_tokens ts MValue [] with
          | Some v => Returned v
          | None => Raised JSONDecodeError
          end
      | None => Raised JSONDecodeError
      end
  end.

(** ** Files *)

Definition fs_update (f : str -> node) (p : str) (n : node) : str -> node :=
  fun q => if str_eq_dec q p then n else f q.

Definition set_node (p : str) (n : node) : M unit :=
  fun '(self, w) =>
    (Returned tt,
     (self, mkWorld (fs_update (fs w) p n) (write_limit w) (tick w) (clock w)
                    (stdout w))).

Definition get_world : M World := fun s => (Returned (snd s), s).

(** [path.exists()]: [stat] is called; that the file is not there gives
    [False], another [OSError] is raised again. *)
Definition path_exists (p : str) : M bool :=
  w <- get_world ;;
  match fs w p with
  | Missing _ => ret false
  | Unreachable error => lift (Raised (OSError error))
  | _ => ret true
  end.

(** [open(path, "w", encoding="utf-8")]: the file is created or emptied. *)
Definition open_w (p : str) : M unit :=
  w <- get_world ;;
  match fs w p with
  | Missing true => set_node p (Regular [] true true)
  | Missing false => lift (Raised (OSError "FileNotFoundError"))
  | Regular _ r true => set_node p (Regular [] r true)
  | Regular _ _ false => lift (Raised (OSError "PermissionError"))
  | Directory => lift (Raised (OSError "IsADirectoryError"))
  | Unreachable error => lift (Raised (OSError error))
  end.

Definition text_to_bytes (text : str) : option (list byte) :=
  match utf8_encode text with
  | Some l => to_bytes l
  | None => None
  end.

(** Writing [text] to the open file and closing it: a full device keeps the
    bytes it could take. *)
Definition write_text (p : str) (text : str) : M unit :=
  w <- get_world ;;
  match text_to_bytes text with
  | None => lift (Raised UnicodeEncodeError)
  | Some bytes =>
      let r := match fs w p with Regular _ r _ => r | _ => true end in
      match write_limit w with
      | Some n =>
          if (n <? List.length bytes)%nat then
            set_node p (Regular (firstn n bytes) r true) ;;;
            lift (Raised (OSError "No space left on device"))
          else set_node p (Regular bytes r true)
      | None => set_node p (Regular bytes r true)
      end
  end.

(** [open(path, "r", encoding="utf-8")]: the bytes of the file. *)
Definition open_r (p : str) : M (list byte) :=
  w <- get_world ;;
  match fs w p with
  | Regular content true _ => ret content
  | Regular _ false _ => lift (Raised (OSError "PermissionError"))
  | Directory => lift (Raised (OSError "IsADirectoryError"))
  | Missing _ => lift (Raised (OSError "FileNotFoundError"))
  | Unreachable error => lift (Raised (OSError error))
  end.

(** [f.read()] *)
Definition read_text (content : list byte) : result str :=
  match utf8_decode (List.map Byte.to_N content) with
  | Some t => Returned (universal_newlines t)
  | None => Raised UnicodeDecodeError
  end.

(** [json.load(f)] *)
Definition json_load (content : list byte) : result pyval :=
  match read_text content with
  | Returned t => json_loads t
  | Raised e => Raised e
  | OutOfModel => OutOfModel
  end.

(** [try: body except classes as exc: handler] *)
Definition try_except {A} (body : M A) (caught : exn -> bool)
  (handler : exn -> M A) : M A :=
  fun s =>
    match body s with
    | (Raised e, s') => if caught e then handler e s' else (Raised e, s')
    | r => r
    end.

(** [except (OSError, json.JSONDecodeError)] *)
Definition os_or_json_error (e : exn) : bool :=
  match e with
  | OSError _ | JSONDecodeError => true
  | _ => false
  end.

(** ** Persistence and the context manager *)

Fixpoint print_lines (items : list (str * pyval)) : M unit :=
  match items with
  | [] => ret tt
  | (item, qty) :: items' => print (print_line item qty) ;;; print_lines items'
  end.

(** Print a formatted inventory report. *)
Definition print_data : M unit :=
  print [Lit (0x0A%N :: lit "--- Inventory Report ---")] ;;;
  stock <- get_stock ;;
  nonempty <- lift (py_bool stock) ;;
  if negb nonempty then print [T "No items in stock."] else
  match stock with
  | PDict d => print_lines (sort_items d)
  | _ => lift (Raised (AttributeError "object has no attribute 'items'"))
  end.

(** Save stock data to a JSON file. *)
Definition save_data : M unit :=
  try_except
    (path <- get_file ;;
     open_w path ;;;
     stock <- get_stock ;;
     text <- lift (match json_dumps stock with
                   | Some t => Returned t
                   | None => OutOfModel
                   end) ;;
     write_text path text ;;;
     _log [T "Inventory saved to "; Lit path])
    os_or_json_error
    (fun exc => _log [T "Error saving inventory: "; FmtExc exc]).

(** Load stock data from a JSON file. *)
Definition load_data : M unit :=
  path <- get_file ;;
  found <- path_exists path ;;
  if negb found then _log [T "No inventory file found. Starting fresh."] else
  try_except
    (content <- open_r path ;;
     v <- lift (json_load content) ;;
     set_stock v ;;;
     _log [T "Loaded inventory from "; Lit path])
    os_or_json_error
    (fun exc => _log [T "Error loading file: "; FmtExc exc]).

(** [Inventory(file)]: [self.file = Path(file)], an empty stock, an empty
    log, then [load_data]. *)
Definition __init__ (file : pathlike) (w : World) : result unit * Sys :=
  load_data (mkInventory (Path file) (PDict []) [], w).

Definition __enter__ : M Inventory := fun s => (Returned (fst s), s).

(** [exc_value] is [None] when the block ended normally.  [if exc_value:]
    tests the truth value: [None] is false, and so is an exception whose
    class makes it false.  The method returns [None]. *)
Definition __exit__ (exc_value : option exn) : M pyval :=
  save_data ;;;
  (match exc_value with
   | Some e =>
       if exn_bool e then _log [T "Error occurred: "; FmtExc e] else ret tt
   | None => ret tt
   end) ;;;
  ret PNone.

(** [with inv: body], for an object [inv] already built. *)
Definition with_inventory (body : M unit) : M unit :=
  fun s =>
    match (__enter__ ;;; body) s with
    | (Returned _, s1) => (__exit__ None ;;; ret tt) s1
    | (Raised e, s1) =>
        match __exit__ (Some e) s1 with
        | (Returned r, s2) =>
            match py_bool r with
            | Returned true => (Returned tt, s2)
            | Returned false => (Raised e, s2)
            | Raised e' => (Raised e', s2)
            | OutOfModel => (OutOfModel, s2)
            end
        | (Raised e', s2) => (Raised e', s2)
        | (OutOfModel, s2) => (OutOfModel, s2)
        end
    | (OutOfModel, s1) => (OutOfModel, s1)
    end.

(** Run demo inventory operations. *)
Definition main (w : World) : result unit * Sys :=
  match __init__ (AsStr (lit "inventory.json")) w with
  | (Returned _, s) =>
      with_inventory
        (add_item (PStr (lit "apple")) (PInt 10) ;;;
         add_item (PStr (lit "banana")) (PInt 5) ;;;
         add_item (PStr (lit "pear")) (PInt 2) ;;;
         remove_item (PStr (lit "apple")) (PInt 3) ;;;
         remove_item (PStr (lit "orange")) (PInt 1) ;;;
         q <- get_qty (PStr (lit "apple")) ;;
         print [Lit (0x0A%N :: lit "Apple stock: "); Fmt q] ;;;
         check_low_items default_threshold ;;;
         print_data) s
  | r => r
  end.

(** ** Vocabulary of the properties *)

Definition stock_of (s : Sys) : pyval := stock_data (fst s).
Definition logs_of (s : Sys) : list fstring := logs (fst s).

(** An item name is valid: a string that is not empty once trimmed. *)
Definition name_ok (item : pyval) : Prop :=
  exists s, item = PStr s /\ strip s <> [].

(** A quantity is valid: an integer greater than zero. *)
Definition qty_ok (qty : pyval) : Prop :=
  exists q, int_value qty = Some q /\ 0 < q.

(** Every stored quantity is an integer. *)
Definition quantities (d : dict) : Prop :=
  forall k v, In (k, v) d -> exists z, v = PInt z.

(** Every stored quantity is a strictly positive integer. *)
Definition positive (d : dict) : Prop :=
  forall k v, In (k, v) d -> exists z, v = PInt z /\ 0 < z.

(** The state after [_log message]. *)
Definition logged (message : fstring) (s : Sys) : Sys :=
  let entry := Lit (clock (snd s) (tick (snd s))) :: T " - " :: message in
  (mkInventory (file (fst s)) (stock_data (fst s)) (logs (fst s) ++ [entry]),
   mkWorld (fs (snd s)) (write_limit (snd s)) (S (tick (snd s)))
           (clock (snd s)) (stdout (snd s) ++ [entry])).

Definition with_stock (v : pyval) (s : Sys) : Sys :=
  (mkInventory (file (fst s)) v (logs (fst s)), snd s).

(** A call that only writes one log entry: it returns, the stock, the file
    name and the files are as before. *)
Definition logged_noop (r : result unit * Sys) (s : Sys) : Prop :=
  fst r = Returned tt
  /\ stock_of (snd r) = stock_of s
  /\ fs (snd (snd r)) = fs (snd s)
  /\ exists entry, logs_of (snd r) = logs_of s ++ [entry].

(** The calls of a client. *)
Inductive call : Type :=
| AddItem (item qty : pyval)
| RemoveItem (item qty : pyval).

Definition run_call (c : call) : M unit :=
  match c with
  | AddItem item qty => add_item item qty
  | RemoveItem item qty => remove_item item qty
  end.

(** The result and the state after each call of a sequence; an exception
    ends the sequence. *)
Fixpoint trace (cs : list call) (s : Sys) : list (result unit * Sys) :=
  match cs with
  | [] => []
  | c :: cs' =>
      let r := run_call c s in
      r :: match fst r with
           | Returned _ => trace cs' (snd r)
           | _ => []
           end
  end.

(** The invariant of the stock: a dictionary whose quantities are strictly
    positive integers, where a name that is not a key has quantity 0. *)
Definition stock_invariant (s : Sys) : Prop :=
  exists d, stock_of s = PDict d
    /\ dict_wf d
    /\ positive d
    /\ forall k, dict_get d k = None ->
         get_qty (PStr k) s = (Returned (PInt 0), s).

(** The names that are low in a dictionary of integers, in its order. *)
Definition low_names (d : dict) (threshold : Z) : list str :=
  dict_keys (filter (fun kv => match snd kv with
                               | PInt q => q <? threshold
                               | _ => false
                               end) d).

(** A world with no file, and the objects of the examples. *)
Definition empty_world : World :=
  mkWorld (fun _ => Missing true) None 0 (fun _ => lit "2025-01-01 00:00:00") [].

Definition new_inventory (w : World) : Sys :=
  (mkInventory (lit "inventory.json") (PDict []) [], w).

Definition apple : str := lit "apple".
Definition banana : str := lit "banana".
Definition pear : str := lit "pear".

Definition example_stock : dict :=
  [(apple, PInt 10); (banana, PInt 5); (pear, PInt 2)].

Definition example_state : Sys :=
  with_stock (PDict example_stock) (new_inventory empty_world).

Definition with_node (p : str) (n : node) (s : Sys) : Sys :=
  (fst s,
   mkWorld (fs_update (fs (snd s)) p n) (write_limit (snd s)) (tick (snd s))
           (clock (snd s)) (stdout (snd s))).

(** The messages of the persistence methods. *)
Definition msg_fresh : fstring := [T "No inventory file found. Starting fresh."].
Definition msg_loaded (p : str) : fstring := [T "Loaded inventory from "; Lit p].
Definition msg_load_error (e : exn) : fstring :=
  [T "Error loading file: "; FmtExc e].
Definition msg_saved (p : str) : fstring := [T "Inventory saved to "; Lit p].
Definition msg_save_error (e : exn) : fstring :=
  [T "Error saving inventory: "; FmtExc e].
Definition msg_exit_error (e : exn) : fstring := [T "Error occurred: "; FmtExc e].

(** The file of the object can be written: it is a writable file or it can
    be created. *)
Definition writable (s : Sys) : Prop :=
  fs (snd s) (file (fst s)) = Missing true
  \/ exists content r, fs (snd s) (file (fst s)) = Regular content r true.

(** *** Vocabulary of the round trip *)

Local Open Scope N_scope.






(** A dictionary of integers, from its items. *)
Definition as_dict (items : list (str * Z)) : dict :=
  List.map (fun kz => (fst kz, PInt (snd kz))) items.

Definition as_texts (items : list (str * Z)) : list (str * str) :=
  List.map (fun kz => (fst kz, int_repr (snd kz))) items.



(** The characters [json.dump] writes: the line feed and printable ASCII. *)
Definition plain (c : N) : Prop := c = 0x0A \/ (0x20 <= c /\ c <= 0x7E).

(** The text [json.dump] writes for a dictionary of integers. *)
Definition object_text (items : list (str * Z)) : str :=
  match items with
  | [] => lit "{}"
  | _ => 0x7B :: newline_indent 1
         ++ join (item_separator 1)
                 (List.map item_text (as_texts (sort_items items)))
         ++ newline_indent 0 ++ [0x7D]
  end.




Definition bytes_of (text : str) : list byte :=
  match to_bytes text with
  | Some bytes => bytes
  | None => []
  end.

Definition quoted (s : string) : str := 0x22 :: lit s ++ [0x22].

(** A world whose only file holds the given bytes. *)
Definition world_with (content : list byte) : World :=
  mkWorld (fun _ => Regular content true true) None 0
          (fun _ => lit "2025-01-01 00:00:00") [].

(** A JSON file written in Latin-1: the byte 0xE9 is not UTF-8. *)
Definition latin1_file : list byte :=
  bytes_of (lit "{" ++ 0x22 :: lit "caf" ++ [0xE9; 0x22] ++ lit ": 1}").

(** A JSON file with a zero and a negative quantity. *)
Definition nonpositive_file : list byte :=
  bytes_of (lit "{" ++ quoted "apple" ++ lit ": 0, " ++ quoted "pear"
            ++ lit ": -3}").

(** A file that stops after the opening brace. *)
Definition truncated_file : list byte := bytes_of (lit "{").

(** A world where the path of the inventory is a directory. *)
Definition directory_world : World :=
  mkWorld (fun _ => Directory) None 0 (fun _ => lit "2025-01-01 00:00:00") [].

(** A block that adds ten apples and then fails. *)
Definition failing_block : M unit :=
  add_item (PStr apple) (PInt 10) ;;;
  lift (Raised (UserError "ValueError" true)).

(** A block that adds ten apples and then fails with an exception that is
    false: that of a class with [def __len__(self): return 0]. *)
Definition silent_block : M unit :=
  add_item (PStr apple) (PInt 10) ;;;
  lift (Raised (UserError "Empty" false)).

(** A world where the path of the inventory is out of reach: a directory
    on the way cannot be searched. *)
Definition unreachable_world : World :=
  mkWorld (fun _ => Unreachable "PermissionError") None 0
          (fun _ => lit "2025-01-01 00:00:00") [].


Local Close Scope N_scope.

(** *** Vocabulary of the further properties *)

(** Whatever the state and the result, also an exception, a computation
    keeps the relation between the state before and the state after. *)
Definition keeps (R : Sys -> Sys -> Prop) {A} (c : M A) : Prop :=
  forall s, R s (snd (c s)).

(** A relation between states that sequencing preserves. *)
Class Step (R : Sys -> Sys -> Prop) : Prop := {
  step_refl : forall s, R s s;
  step_trans : forall s1 s2 s3, R s1 s2 -> R s2 s3 -> R s1 s3
}.

(** The stock and the file name of the object are as before. *)
Definition same_object (s s' : Sys) : Prop :=
  stock_of s' = stock_of s /\ file (fst s') = file (fst s).

(** The files and the room on the device are as before. *)
Definition same_files (s s' : Sys) : Prop :=
  fs (snd s') = fs (snd s) /\ write_limit (snd s') = write_limit (snd s).

(** No path but that of the object was written. *)
Definition other_files_kept (s s' : Sys) : Prop :=
  file (fst s') = file (fst s)
  /\ forall q, q <> file (fst s) -> fs (snd s') q = fs (snd s) q.

(** The entries that [_log] writes for the messages, when the clock is
    read for the [t]-th time at the first of them. *)
Fixpoint stamp (clock : nat -> str) (t : nat) (messages : list fstring)
  : list fstring :=
  match messages with
  | [] => []
  | m :: messages' =>
      (Lit (clock t) :: T " - " :: m) :: stamp clock (S t) messages'
  end.

(** The log has grown by entries that were printed too, each with the
    reading of the clock taken when it was written. *)
Definition log_step (s s' : Sys) : Prop :=
  clock (snd s') = clock (snd s)
  /\ exists messages,
       let entries := stamp (clock (snd s)) (tick (snd s)) messages in
       logs_of s' = logs_of s ++ entries
       /\ stdout (snd s') = stdout (snd s) ++ entries
       /\ tick (snd s') = (tick (snd s) + List.length messages)%nat.

(** The string holds a character that is not white space. *)
Definition has_visible (k : str) : bool := existsb (fun c => negb (is_space c)) k.

(** The messages of the validators. *)
Definition msg_invalid_item (item : pyval) : fstring :=
  [T "Invalid item name: "; Repr item].

Definition msg_invalid_qty (qty : pyval) : fstring :=
  [T "Invalid quantity: "; Repr qty; T ". Must be a positive integer."].

(** Nothing but the standard output changed, and it only grew. *)
Definition prints_only (s s' : Sys) : Prop :=
  fst s' = fst s
  /\ same_files s s'
  /\ tick (snd s') = tick (snd s)
  /\ exists lines, stdout (snd s') = stdout (snd s) ++ lines.

(** The stock after a computation. *)
Definition stock_after {A} (c : M A) (s : Sys) : pyval := stock_of (snd (c s)).

(** The quantity stored for a name, 0 when it is not a key. *)
Definition quantity_of (d : dict) (k : str) : Z :=
  match dict_get d k with Some (PInt z) => z | _ => 0 end.

(** The names of the items increase strictly along the list. *)
Fixpoint increasing {A} (l : list (str * A)) : Prop :=
  match l with
  | [] => True
  | x :: l' =>
      Forall (fun y => str_ltb (fst x) (fst y) = true) l' /\ increasing l'
  end.

(** The state after the lines were printed. *)
Definition printed (lines : list fstring) (s : Sys) : Sys :=
  (fst s,
   mkWorld (fs (snd s)) (write_limit (snd s)) (tick (snd s)) (clock (snd s))
           (stdout (snd s) ++ lines)).

(** The lines of [print_data]. *)
Definition report_header : fstring :=
  [Lit (0x0A%N :: lit "--- Inventory Report ---")].

Definition report_lines (items : list (str * pyval)) : list fstring :=
  List.map (fun kv => print_line (fst kv) (snd kv)) items.



(** Induction on a value, with the property for the elements of a list and
    for the values of a dictionary. *)
Fixpoint pyval_nested_ind (P : pyval -> Prop)
  (HNone : P PNone) (HBool : forall b, P (PBool b))
  (HInt : forall z, P (PInt z)) (HFloat : forall l, P (PFloat l))
  (HStr : forall s, P (PStr s))
  (HList : forall l, Forall P l -> P (PList l))
  (HDict : forall d, Forall (fun kv => P (snd kv)) d -> P (PDict d))
  (v : pyval) {struct v} : P v :=
  match v with
  | PNone => HNone
  | PBool b => HBool b
  | PInt z => HInt z
  | PFloat l => HFloat l
  | PStr s => HStr s
  | PList l =>
      HList l
        ((fix elements (l : list pyval) : Forall P l :=
            match l with
            | [] => Forall_nil P
            | x :: l' =>
                Forall_cons x
                  (pyval_nested_ind P HNone HBool HInt HFloat HStr HList HDict x)
                  (elements l')
            end) l)
  | PDict d =>
      HDict d
        ((fix values (d : list (str * pyval))
            : Forall (fun kv => P (snd kv)) d :=
            match d with
            | [] => Forall_nil _
            | kv :: d' =>
                Forall_cons kv
                  (pyval_nested_ind P HNone HBool HInt HFloat HStr HList HDict
                     (snd kv))
                  (values d')
            end) d)
  end.

(** The entry that [_log message] writes in the state [s]. *)
Definition entry_of (message : fstring) (s : Sys) : fstring :=
  Lit (clock (snd s) (tick (snd s))) :: T " - " :: message.

(** The block of [main]. *)
Definition demo : M unit :=
  add_item (PStr (lit "apple")) (PInt 10) ;;;
  add_item (PStr (lit "banana")) (PInt 5) ;;;
  add_item (PStr (lit "pear")) (PInt 2) ;;;
  remove_item (PStr (lit "apple")) (PInt 3) ;;;
  remove_item (PStr (lit "orange")) (PInt 1) ;;;
  q <- get_qty (PStr (lit "apple")) ;;
  print [Lit (0x0A%N :: lit "Apple stock: "); Fmt q] ;;;
  check_low_items default_threshold ;;;
  print_data.

(** The stock at the end of [main]. *)
Definition demo_stock : dict :=
  [(apple, PInt 7); (banana, PInt 5); (pear, PInt 2)].

(** The message of [check_low_items]. *)
Definition msg_low (low : list str) : fstring :=
  match low with
  | [] => [T "No low-stock items detected."]
  | _ :: _ => [T "Low stock items: "; Lit (join (lit ", ") low)]
  end.




(** [name in stock] for a stock that is a JSON string or a JSON array. *)
Definition found_in (k : str) (stock : pyval) : bool :=
  match stock with
  | PStr text => is_substring k text
  | PList l =>
      existsb (fun e => match e with
                        | PStr s => if str_eq_dec k s then true else false
                        | _ => false
                        end) l
  | _ => false
  end.

(** The message of [remove_item] for a name that is not in the stock. *)
Definition msg_not_found (item : pyval) : fstring :=
  [T "Item '"; Fmt item; T "' not found in inventory."].

Arguments digits_value : simpl never.
Arguments lit : simpl never.
Arguments T : simpl never.

(** ** Dictionaries *)

Lemma dict_get_set_same d k v : dict_get (dict_set d k v) k = Some v.
Proof.
  induction d as [|[k' v'] d IH]; simpl.
  - destruct (str_eq_dec k k); congruence.
  - destruct (str_eq_dec k k') as [->|Hne]; simpl.
    + destruct (str_eq_dec k' k'); congruence.
    + destruct (str_eq_dec k k'); congruence.
Qed.

Lemma dict_get_set_other d k v k' :
  k' <> k -> dict_get (dict_set d k v) k' = dict_get d k'.
Proof.
  intros Hne. induction d as [|[k0 v0] d IH]; simpl.
  - destruct (str_eq_dec k' k); congruence.
  - destruct (str_eq_dec k k0) as [->|Hk]; simpl.
    + destruct (str_eq_dec k' k0); congruence.
    + destruct (str_eq_dec k' k0); congruence.
Qed.

Lemma dict_get_del_other d k k' :
  k' <> k -> dict_get (dict_del d k) k' = dict_get d k'.
Proof.
  intros Hne. induction d as [|[k0 v0] d IH]; simpl; auto.
  destruct (str_eq_dec k k0) as [->|Hk]; simpl.
  - destruct (str_eq_dec k' k0); congruence.
  - destruct (str_eq_dec k' k0); congruence.
Qed.

Lemma dict_get_In d k v : dict_get d k = Some v -> In (k, v) d.
Proof.
  induction d as [|[k0 v0] d IH]; simpl; [discriminate|].
  destruct (str_eq_dec k k0) as [->|Hk]; intros H.
  - left. congruence.
  - right. auto.
Qed.

Lemma dict_get_None d k : dict_get d k = None <-> ~ In k (dict_keys d).
Proof.
  induction d as [|[k0 v0] d IH]; simpl.
  - tauto.
  - destruct (str_eq_dec k k0) as [->|Hk].
    + split; [discriminate|]. intros H. exfalso. apply H. now left.
    + rewrite IH. split; intros H; [intros [Heq|Hin]; [congruence|tauto]|tauto].
Qed.

Lemma In_dict_get d k v : dict_wf d -> In (k, v) d -> dict_get d k = Some v.
Proof.
  unfold dict_wf. induction d as [|[k0 v0] d IH]; simpl; [tauto|].
  intros Hnd [Heq|Hin].
  - inversion Heq; subst. destruct (str_eq_dec k k); congruence.
  - inversion Hnd as [|? ? Hnot Hnd']; subst.
    destruct (str_eq_dec k k0) as [->|Hk]; [|auto].
    exfalso. apply Hnot. change k0 with (fst (k0, v)). now apply in_map.
Qed.

Lemma In_dict_set d k v k' v' :
  In (k', v') (dict_set d k v) -> (k' = k /\ v' = v) \/ In (k', v') d.
Proof.
  induction d as [|[k0 v0] d IH]; simpl.
  - intros [H|[]]. left. split; congruence.
  - destruct (str_eq_dec k k0) as [->|Hk]; simpl; intros [H|H].
    + left. split; congruence.
    + right. now right.
    + right. now left.
    + destruct (IH H); [now left|right; now right].
Qed.

Lemma In_dict_del d k k' v' : In (k', v') (dict_del d k) -> In (k', v') d.
Proof.
  induction d as [|[k0 v0] d IH]; simpl; [tauto|].
  destruct (str_eq_dec k k0) as [->|Hk]; simpl; intros H.
  - now right.
  - destruct H; [now left|right; auto].
Qed.

Lemma dict_keys_set d k v :
  dict_keys (dict_set d k v) =
  if in_dec str_eq_dec k (dict_keys d) then dict_keys d else dict_keys d ++ [k].
Proof.
  induction d as [|[k0 v0] d IH]; simpl; [reflexivity|].
  destruct (str_eq_dec k k0) as [->|Hk]; simpl.
  - destruct (str_eq_dec k0 k0); [|congruence].
    reflexivity.
  - destruct (str_eq_dec k0 k); [congruence|]. rewrite IH.
    destruct (in_dec str_eq_dec k (dict_keys d)); reflexivity.
Qed.

Lemma dict_wf_set d k v : dict_wf d -> dict_wf (dict_set d k v).
Proof.
  unfold dict_wf. intros Hnd. rewrite dict_keys_set.
  destruct (in_dec str_eq_dec k (dict_keys d)) as [Hin|Hnin]; [assumption|].
  apply NoDup_app; [assumption|repeat constructor; simpl; tauto|].
  intros x Hx [Heq|[]]. congruence.
Qed.

Lemma dict_wf_del d k : dict_wf d -> dict_wf (dict_del d k).
Proof.
  unfold dict_wf. induction d as [|[k0 v0] d IH]; simpl; [auto|].
  intros Hnd. inversion Hnd as [|? ? Hnot Hnd']; subst.
  destruct (str_eq_dec k k0) as [->|Hk]; simpl; [assumption|].
  constructor; [|auto].
  intros Hin. apply Hnot. unfold dict_keys in *.
  apply in_map_iff in Hin. destruct Hin as [[k1 v1] [Hfst Hin]].
  simpl in Hfst; subst. apply In_dict_del in Hin.
  change k0 with (fst (k0, v1)). now apply in_map.
Qed.

Lemma dict_get_del_same d k : dict_wf d -> dict_get (dict_del d k) k = None.
Proof.
  unfold dict_wf. induction d as [|[k0 v0] d IH]; simpl; [auto|].
  intros Hnd. inversion Hnd as [|? ? Hnot Hnd']; subst.
  destruct (str_eq_dec k k0) as [->|Hk]; simpl.
  - now apply dict_get_None.
  - destruct (str_eq_dec k k0); [congruence|auto].
Qed.

(** ** Running the methods *)

Lemma _log_run message s : _log message s = (Returned tt, logged message s).
Proof. destruct s as [self w]. reflexivity. Qed.

Lemma name_ok_dec item :
  (exists k, item = PStr k /\ strip k <> []) \/
  (negb (isinstance_str item)
   || negb (match item with
            | PStr s => match strip s with [] => false | _ => true end
            | _ => false
            end) = true /\ ~ name_ok item).
Proof.
  destruct item; try (right; split; [reflexivity|intros [k [H _]]; discriminate]).
  destruct (strip s) eqn:Hs.
  - right. split; [reflexivity|].
    intros [k [H Hk]]. inversion H; subst. auto.
  - left. exists s. split; [reflexivity|]. rewrite Hs. discriminate.
Qed.

Lemma qty_ok_dec qty :
  (exists q, int_value qty = Some q /\ 0 < q) \/
  (negb (isinstance_int qty)
   || match int_value qty with Some z => z <=? 0 | None => false end = true
   /\ ~ qty_ok qty).
Proof.
  destruct qty as [| b | z | | | |];
    try (right; split; [reflexivity|intros [q [H _]]; discriminate]).
  - destruct b.
    + left. exists 1. split; [reflexivity|lia].
    + right. split; [reflexivity|]. intros [q [H Hq]]. simpl in H.
      inversion H; subst. lia.
  - destruct (Z.leb_spec z 0).
    + right. split; [simpl; apply Z.leb_le; assumption|].
      intros [q [Hv Hq]]. simpl in Hv. inversion Hv; subst. lia.
    + left. exists z. split; [reflexivity|assumption].
Qed.

Lemma _validate_item_ok k s :
  strip k <> [] -> _validate_item (PStr k) s = (Returned true, s).
Proof.
  intros Hk. unfold _validate_item, isinstance_str.
  destruct (strip k); [congruence|reflexivity].
Qed.

Lemma _validate_qty_ok qty q s :
  int_value qty = Some q -> 0 < q -> _validate_qty qty s = (Returned true, s).
Proof.
  intros Hv Hq. unfold _validate_qty. rewrite Hv.
  replace (isinstance_int qty) with true by (destruct qty; simpl in *; congruence).
  destruct (Z.leb_spec q 0); [lia|reflexivity].
Qed.

Lemma validate_ok k qty q s :
  strip k <> [] -> int_value qty = Some q -> 0 < q ->
  validate (PStr k) qty s = (Returned true, s).
Proof.
  intros Hk Hv Hq. unfold validate, bind.
  rewrite _validate_item_ok by assumption.
  now apply _validate_qty_ok with q.
Qed.

(** A refused call leaves one log entry and nothing else. *)
Lemma validate_refused item qty s :
  ~ name_ok item \/ ~ qty_ok qty ->
  exists message, validate item qty s = (Returned false, logged message s).
Proof.
  intros Hbad. unfold validate, bind.
  destruct (name_ok_dec item) as [[k [-> Hk]]|[Hi Hn]].
  - rewrite _validate_item_ok by assumption.
    destruct (qty_ok_dec qty) as [[q [Hv Hq]]|[Hq Hn]].
    + exfalso. destruct Hbad as [H|H]; apply H.
      * exists k. auto.
      * exists q. auto.
    + unfold _validate_qty. rewrite Hq. unfold bind. rewrite _log_run.
      eexists. reflexivity.
  - unfold _validate_item. rewrite Hi. unfold bind. rewrite _log_run.
    eexists. reflexivity.
Qed.

Lemma add_item_run s d k qty q total :
  stock_of s = PDict d ->
  strip k <> [] -> int_value qty = Some q -> 0 < q ->
  py_add (match dict_get d k with Some v => v | None => PInt 0 end) qty
  = Returned total ->
  add_item (PStr k) qty s
  = (Returned tt,
     logged [T "Added "; Fmt qty; T " of '"; Fmt (PStr k); T "'. Total: ";
             Fmt total]
            (with_stock (PDict (dict_set d k total)) s)).
Proof.
  intros Hd Hk Hv Hq Hadd. destruct s as [self w]. unfold stock_of in Hd.
  simpl in Hd. unfold add_item, bind.
  rewrite (validate_ok k qty q) by assumption. simpl.
  rewrite Hd. simpl. unfold lift. rewrite Hadd. simpl.
  rewrite dict_get_set_same. rewrite _log_run. reflexivity.
Qed.

Lemma remove_item_missing s d k qty q :
  stock_of s = PDict d ->
  strip k <> [] -> int_value qty = Some q -> 0 < q ->
  dict_get d k = None ->
  remove_item (PStr k) qty s
  = (Returned tt,
     logged [T "Item '"; Fmt (PStr k); T "' not found in inventory."] s).
Proof.
  intros Hd Hk Hv Hq Hget. destruct s as [self w]. unfold stock_of in Hd.
  simpl in Hd. unfold remove_item, bind.
  rewrite (validate_ok k qty q) by assumption. simpl.
  rewrite Hd. simpl. rewrite Hget. simpl. rewrite _log_run. reflexivity.
Qed.

Lemma remove_item_run s d k qty q cur :
  stock_of s = PDict d ->
  strip k <> [] -> int_value qty = Some q -> 0 < q ->
  dict_get d k = Some (PInt cur) ->
  remove_item (PStr k) qty s
  = (Returned tt,
     if cur - q <=? 0
     then logged [T "'"; Fmt (PStr k);
                  T "' removed from inventory (out of stock)."]
            (with_stock (PDict (dict_del (dict_set d k (PInt (cur - q))) k)) s)
     else logged [T "Removed "; Fmt qty; T " of '"; Fmt (PStr k);
                  T "'. Remaining: "; Fmt (PInt (cur - q))]
            (with_stock (PDict (dict_set d k (PInt (cur - q)))) s)).
Proof.
  intros Hd Hk Hv Hq Hget. destruct s as [self w]. unfold stock_of in Hd.
  simpl in Hd. unfold remove_item, bind.
  rewrite (validate_ok k qty q) by assumption. simpl.
  rewrite Hd. simpl. rewrite Hget. simpl.
  assert (Hsub : py_sub (PInt cur) qty = Returned (PInt (cur - q))).
  { destruct qty; simpl in Hv; try discriminate; inversion Hv; reflexivity. }
  unfold lift. rewrite Hsub. simpl. rewrite dict_get_set_same. simpl.
  destruct (cur - q <=? 0); simpl; rewrite _log_run; reflexivity.
Qed.

Lemma dict_del_set d k v :
  dict_wf d -> forall k', dict_get (dict_del (dict_set d k v) k) k'
                          = dict_get (dict_del d k) k'.
Proof.
  intros Hwf k'. destruct (str_eq_dec k' k) as [->|Hne].
  - rewrite !dict_get_del_same; auto using dict_wf_set.
  - rewrite !dict_get_del_other by assumption.
    now apply dict_get_set_other.
Qed.

Lemma get_qty_run s d k :
  stock_of s = PDict d ->
  get_qty (PStr k) s
  = (Returned (match dict_get d k with Some v => v | None => PInt 0 end), s).
Proof.
  intros Hd. destruct s as [self w]. unfold stock_of in Hd. simpl in Hd.
  unfold get_qty, bind. simpl. rewrite Hd. reflexivity.
Qed.

Lemma add_item_refused item qty s :
  ~ name_ok item \/ ~ qty_ok qty ->
  exists message, add_item item qty s = (Returned tt, logged message s).
Proof.
  intros Hbad. destruct (validate_refused item qty s Hbad) as [m Hm].
  exists m. unfold add_item, bind. rewrite Hm. reflexivity.
Qed.

Lemma remove_item_refused item qty s :
  ~ name_ok item \/ ~ qty_ok qty ->
  exists message, remove_item item qty s = (Returned tt, logged message s).
Proof.
  intros Hbad. destruct (validate_refused item qty s Hbad) as [m Hm].
  exists m. unfold remove_item, bind. rewrite Hm. reflexivity.
Qed.

Lemma logged_is_noop message s : logged_noop (Returned tt, logged message s) s.
Proof.
  unfold logged_noop, logged, stock_of, logs_of. simpl.
  repeat split. eexists. reflexivity.
Qed.

Lemma int_value_add a qty q :
  int_value qty = Some q -> py_add (PInt a) qty = Returned (PInt (a + q)).
Proof.
  destruct qty; simpl; intros H; try discriminate; inversion H; reflexivity.
Qed.

Lemma stock_invariant_intro s d :
  stock_of s = PDict d -> dict_wf d -> positive d -> stock_invariant s.
Proof.
  intros Hd Hwf Hpos. exists d. repeat split; try assumption.
  intros k Hk. rewrite (get_qty_run s d k Hd), Hk. reflexivity.
Qed.

Lemma stock_of_logged message s : stock_of (logged message s) = stock_of s.
Proof. reflexivity. Qed.

Lemma stock_of_with_stock v s : stock_of (with_stock v s) = v.
Proof. reflexivity. Qed.

Lemma positive_set d k z :
  positive d -> 0 < z -> positive (dict_set d k (PInt z)).
Proof.
  intros Hpos Hz k' v' Hin. apply In_dict_set in Hin.
  destruct Hin as [[_ ->]|Hin]; [exists z; auto|eauto].
Qed.

Lemma positive_del d k : positive d -> positive (dict_del d k).
Proof. intros Hpos k' v' Hin. apply In_dict_del in Hin. eauto. Qed.

Lemma positive_del_set d k v : positive d -> positive (dict_del (dict_set d k v) k).
Proof.
  intros Hpos k' v' Hin.
  assert (Hk : k' <> k \/ k' = k) by (destruct (str_eq_dec k' k); auto).
  induction d as [|[k0 v0] d IH]; simpl in Hin.
  - destruct (str_eq_dec k k); [destruct Hin|congruence].
  - destruct (str_eq_dec k k0) as [->|Hne]; simpl in Hin.
    + destruct (str_eq_dec k0 k0); [|congruence].
      apply (Hpos k' v'). now right.
    + destruct (str_eq_dec k k0); [congruence|].
      destruct Hin as [Heq|Hin].
      * apply (Hpos k' v'). now left.
      * apply IH; [|assumption]. intros k1 v1 H1. apply (Hpos k1 v1). now right.
Qed.

(** Each call keeps the invariant and returns. *)
Lemma run_call_invariant c s :
  stock_invariant s ->
  exists s', run_call c s = (Returned tt, s') /\ stock_invariant s'.
Proof.
  intros [d [Hd [Hwf [Hpos _]]]].
  assert (Hkeep : forall m, stock_invariant (logged m s)).
  { intros m. apply stock_invariant_intro with d; auto. }
  destruct c as [item qty|item qty]; simpl.
  - destruct (name_ok_dec item) as [[k [-> Hk]]|[_ Hn]].
    2:{ destruct (add_item_refused item qty s (or_introl Hn)) as [m Hm].
        rewrite Hm. eauto. }
    destruct (qty_ok_dec qty) as [[q [Hv Hq]]|[_ Hn]].
    2:{ destruct (add_item_refused (PStr k) qty s (or_intror Hn)) as [m Hm].
        rewrite Hm. eauto. }
    destruct (dict_get d k) as [v|] eqn:Hget.
    + destruct (Hpos k v (dict_get_In _ _ _ Hget)) as [a [-> Ha]].
      rewrite (add_item_run s d k qty q (PInt (a + q))); auto.
      * eexists. split; [reflexivity|].
        apply stock_invariant_intro with (dict_set d k (PInt (a + q))).
        -- reflexivity.
        -- now apply dict_wf_set.
        -- apply positive_set; [assumption|lia].
      * rewrite Hget. now apply int_value_add.
    + rewrite (add_item_run s d k qty q (PInt (0 + q))); auto.
      * eexists. split; [reflexivity|].
        apply stock_invariant_intro with (dict_set d k (PInt (0 + q))).
        -- reflexivity.
        -- now apply dict_wf_set.
        -- apply positive_set; [assumption|lia].
      * rewrite Hget. now apply int_value_add.
  - destruct (name_ok_dec item) as [[k [-> Hk]]|[_ Hn]].
    2:{ destruct (remove_item_refused item qty s (or_introl Hn)) as [m Hm].
        rewrite Hm. eauto. }
    destruct (qty_ok_dec qty) as [[q [Hv Hq]]|[_ Hn]].
    2:{ destruct (remove_item_refused (PStr k) qty s (or_intror Hn)) as [m Hm].
        rewrite Hm. eauto. }
    destruct (dict_get d k) as [v|] eqn:Hget.
    + destruct (Hpos k v (dict_get_In _ _ _ Hget)) as [a [-> Ha]].
      rewrite (remove_item_run s d k qty q a); auto.
      destruct (Z.leb_spec (a - q) 0).
      * eexists. split; [reflexivity|].
        apply stock_invariant_intro
          with (dict_del (dict_set d k (PInt (a - q))) k).
        -- reflexivity.
        -- apply dict_wf_del. now apply dict_wf_set.
        -- now apply positive_del_set.
      * eexists. split; [reflexivity|].
        apply stock_invariant_intro with (dict_set d k (PInt (a - q))).
        -- reflexivity.
        -- now apply dict_wf_set.
        -- apply positive_set; [assumption|lia].
    + rewrite (remove_item_missing s d k qty q); auto. eauto.
Qed.

(** C1. Starting from an empty stock, every call of a sequence of [add_item]
    and [remove_item] calls returns, and after each call the stock is a
    dictionary in which every key maps to a strictly positive integer, while
    [get_qty] of a name that is not a key is 0. *)
Theorem stock_quantities_stay_positive :
  forall (cs : list call) (f : str) (l : list fstring) (w : World),
    let history := trace cs (mkInventory f (PDict []) l, w) in
    List.length history = List.length cs
    /\ Forall (fun r => fst r = Returned tt /\ stock_invariant (snd r)) history.
Proof.
  intros cs f l w.
  assert (H0 : stock_invariant (mkInventory f (PDict []) l, w)).
  { apply stock_invariant_intro with []; [reflexivity|constructor|].
    intros k v []. }
  revert H0. generalize (mkInventory f (PDict []) l, w).
  induction cs as [|c cs IH]; intros s Hs; simpl.
  - split; [reflexivity|constructor].
  - destruct (run_call_invariant c s Hs) as [s' [Hrun Hs']].
    rewrite Hrun. simpl. destruct (IH s' Hs') as [Hlen Hall].
    split; [now rewrite Hlen|]. constructor; [split; [reflexivity|assumption]|].
    assumption.
Qed.

(** C2. For a valid name and a valid quantity, [add_item] returns and sets
    the quantity of the item to its previous quantity (0 when absent) plus
    the added one; every other lookup answers as before.  In particular
    adding 10 and then 3 apples to an empty stock gives 13. *)
Theorem add_item_adds_quantity :
  (forall (s : Sys) (item : str) (qty : pyval) (q prev : Z),
      strip item <> [] -> int_value qty = Some q -> 0 < q ->
      get_qty (PStr item) s = (Returned (PInt prev), s) ->
      exists s' d,
        add_item (PStr item) qty s = (Returned tt, s')
        /\ stock_of s = PDict d
        /\ stock_of s' = PDict (dict_set d item (PInt (prev + q)))
        /\ get_qty (PStr item) s' = (Returned (PInt (prev + q)), s')
        /\ forall other, other <> PStr item ->
             fst (get_qty other s') = fst (get_qty other s))
  /\ (forall w,
        fst ((add_item (PStr apple) (PInt 10) ;;;
              add_item (PStr apple) (PInt 3) ;;;
              get_qty (PStr apple)) (new_inventory w))
        = Returned (PInt 13)).
Proof.
  split.
  - intros s item qty q prev Hk Hv Hq Hget.
    assert (Hd : exists d, stock_of s = PDict d).
    { destruct s as [[f st l] w]. unfold get_qty, bind in Hget. simpl in Hget.
      destruct st; simpl in Hget; try discriminate. eexists. reflexivity. }
    destruct Hd as [d Hd]. rewrite (get_qty_run s d item Hd) in Hget.
    assert (Hcur : match dict_get d item with Some v => v | None => PInt 0 end
                   = PInt prev) by congruence.
    eexists. exists d. split.
    { apply (add_item_run s d item qty q (PInt (prev + q)) Hd Hk Hv Hq).
      rewrite Hcur. now apply int_value_add. }
    split; [assumption|]. split; [reflexivity|]. split.
    { erewrite get_qty_run by reflexivity. now rewrite dict_get_set_same. }
    intros other Hother.
    destruct s as [[f st l] w]. unfold stock_of in Hd. simpl in Hd. subst st.
    unfold get_qty, bind, logged, with_stock. simpl.
    destruct other; try reflexivity. simpl.
    rewrite dict_get_set_other by congruence. reflexivity.
  - intros w. reflexivity.
Qed.

Lemma add_item_adds_quantity_witness :
  strip apple <> [] /\ int_value (PInt 3) = Some 3 /\ 0 < 3
  /\ get_qty (PStr apple) example_state = (Returned (PInt 10), example_state)
  /\ exists s' d,
       add_item (PStr apple) (PInt 3) example_state = (Returned tt, s')
       /\ stock_of example_state = PDict d
       /\ stock_of s' = PDict (dict_set d apple (PInt (10 + 3)))
       /\ get_qty (PStr apple) s' = (Returned (PInt (10 + 3)), s')
       /\ forall other, other <> PStr apple ->
            fst (get_qty other s') = fst (get_qty other example_state).
Proof.
  assert (H1 : strip apple <> []) by (vm_compute; discriminate).
  assert (H2 : int_value (PInt 3) = Some 3) by reflexivity.
  assert (H3 : 0 < 3) by lia.
  assert (H4 : get_qty (PStr apple) example_state
               = (Returned (PInt 10), example_state)) by reflexivity.
  repeat (split; [assumption|]).
  exact (proj1 add_item_adds_quantity example_state apple (PInt 3) 3 10
               H1 H2 H3 H4).
Defined.

(** C3. A call of [add_item] or [remove_item] whose name is not valid or
    whose quantity is not a positive integer, and a call of [remove_item] for
    a valid name that is not in the stock, returns without exception, leaves
    the stock as it was and appends one log entry. *)
Theorem invalid_calls_are_logged_noops :
  (forall (s : Sys) (item qty : pyval),
      ~ name_ok item \/ ~ qty_ok qty ->
      logged_noop (add_item item qty s) s
      /\ logged_noop (remove_item item qty s) s)
  /\ (forall (s : Sys) (d : dict) (item : str) (qty : pyval),
        stock_of s = PDict d -> name_ok (PStr item) -> qty_ok qty ->
        dict_get d item = None ->
        logged_noop (remove_item (PStr item) qty s) s).
Proof.
  split.
  - intros s item qty Hbad. split.
    + destruct (add_item_refused item qty s Hbad) as [m ->].
      apply logged_is_noop.
    + destruct (remove_item_refused item qty s Hbad) as [m ->].
      apply logged_is_noop.
  - intros s d item qty Hd [k [Hk Hs]] [q [Hv Hq]] Hget.
    inversion Hk; subst k.
    rewrite (remove_item_missing s d item qty q); auto.
    apply logged_is_noop.
Qed.

Lemma invalid_calls_are_logged_noops_witness :
  (~ name_ok (PStr []) \/ ~ qty_ok (PInt 5))
  /\ (~ name_ok (PStr (lit "x")) \/ ~ qty_ok (PInt (-1)))
  /\ (~ name_ok (PStr (lit "x")) \/ ~ qty_ok (PInt 0))
  /\ logged_noop (add_item (PStr []) (PInt 5) example_state) example_state
  /\ logged_noop (add_item (PStr (lit "x")) (PInt (-1)) example_state)
                 example_state
  /\ logged_noop (add_item (PStr (lit "x")) (PInt 0) example_state)
                 example_state
  /\ stock_of (new_inventory empty_world) = PDict []
  /\ name_ok (PStr apple) /\ qty_ok (PInt 3) /\ dict_get [] apple = None
  /\ logged_noop (remove_item (PStr apple) (PInt 3) (new_inventory empty_world))
                 (new_inventory empty_world).
Proof.
  assert (H1 : ~ name_ok (PStr []) \/ ~ qty_ok (PInt 5)).
  { left. intros [k [Hk Hs]]. inversion Hk; subst. apply Hs. reflexivity. }
  assert (H2 : ~ name_ok (PStr (lit "x")) \/ ~ qty_ok (PInt (-1))).
  { right. intros [q [Hv Hq]]. inversion Hv; subst. lia. }
  assert (H3 : ~ name_ok (PStr (lit "x")) \/ ~ qty_ok (PInt 0)).
  { right. intros [q [Hv Hq]]. inversion Hv; subst. lia. }
  assert (H4 : name_ok (PStr apple)).
  { exists apple. split; [reflexivity|vm_compute; discriminate]. }
  assert (H5 : qty_ok (PInt 3)).
  { exists 3. split; [reflexivity|lia]. }
  split; [exact H1|]. split; [exact H2|]. split; [exact H3|].
  split; [exact (proj1 (proj1 invalid_calls_are_logged_noops _ _ _ H1))|].
  split; [exact (proj1 (proj1 invalid_calls_are_logged_noops _ _ _ H2))|].
  split; [exact (proj1 (proj1 invalid_calls_are_logged_noops _ _ _ H3))|].
  split; [reflexivity|]. split; [exact H4|]. split; [exact H5|].
  split; [reflexivity|].
  exact (proj2 invalid_calls_are_logged_noops (new_inventory empty_world) []
               apple (PInt 3) eq_refl H4 H5 eq_refl).
Defined.

(** C4. For an item of the stock and a valid quantity, [remove_item] returns
    and subtracts the quantity: when the result is zero or less the key is
    deleted, whatever the excess, and otherwise the result is stored.  In
    particular adding 5 apples to an empty stock and removing 5 leaves no
    apple key, and [get_qty] answers 0. *)
Theorem remove_item_subtracts_or_deletes :
  (forall (s : Sys) (d : dict) (item : str) (qty : pyval) (q cur : Z),
      strip item <> [] -> int_value qty = Some q -> 0 < q ->
      stock_of s = PDict d -> dict_wf d ->
      dict_get d item = Some (PInt cur) ->
      exists s' d',
        remove_item (PStr item) qty s = (Returned tt, s')
        /\ stock_of s' = PDict d'
        /\ (forall k, k <> item -> dict_get d' k = dict_get d k)
        /\ (cur - q <= 0 ->
              dict_get d' item = None /\ ~ In item (dict_keys d')
              /\ get_qty (PStr item) s' = (Returned (PInt 0), s'))
        /\ (0 < cur - q ->
              dict_get d' item = Some (PInt (cur - q))
              /\ get_qty (PStr item) s' = (Returned (PInt (cur - q)), s')))
  /\ (forall w,
        let r := (add_item (PStr apple) (PInt 5) ;;;
                  remove_item (PStr apple) (PInt 5) ;;;
                  get_qty (PStr apple)) (new_inventory w) in
        fst r = Returned (PInt 0) /\ stock_of (snd r) = PDict []).
Proof.
  split.
  - intros s d item qty q cur Hk Hv Hq Hd Hwf Hget.
    rewrite (remove_item_run s d item qty q cur Hd Hk Hv Hq Hget).
    destruct (Z.leb_spec (cur - q) 0) as [Hle|Hgt].
    + eexists. eexists. split; [reflexivity|]. split; [reflexivity|].
      assert (Hnone : dict_get (dict_del (dict_set d item (PInt (cur - q))) item)
                               item = None).
      { apply dict_get_del_same. now apply dict_wf_set. }
      split.
      { intros k Hne. rewrite dict_get_del_other by assumption.
        now apply dict_get_set_other. }
      split; [|lia]. intros _. split; [assumption|].
      split; [now apply dict_get_None|].
      erewrite get_qty_run by reflexivity. now rewrite Hnone.
    + eexists. eexists. split; [reflexivity|]. split; [reflexivity|].
      split; [intros k Hne; now apply dict_get_set_other|].
      split; [lia|]. intros _. split; [apply dict_get_set_same|].
      erewrite get_qty_run by reflexivity. now rewrite dict_get_set_same.
  - intros w. split; reflexivity.
Qed.

Lemma remove_item_subtracts_or_deletes_witness :
  strip pear <> [] /\ int_value (PInt 7) = Some 7 /\ 0 < 7
  /\ stock_of example_state = PDict example_stock /\ dict_wf example_stock
  /\ dict_get example_stock pear = Some (PInt 2)
  /\ exists s' d',
       remove_item (PStr pear) (PInt 7) example_state = (Returned tt, s')
       /\ stock_of s' = PDict d'
       /\ (forall k, k <> pear -> dict_get d' k = dict_get example_stock k)
       /\ (2 - 7 <= 0 ->
             dict_get d' pear = None /\ ~ In pear (dict_keys d')
             /\ get_qty (PStr pear) s' = (Returned (PInt 0), s'))
       /\ (0 < 2 - 7 ->
             dict_get d' pear = Some (PInt (2 - 7))
             /\ get_qty (PStr pear) s' = (Returned (PInt (2 - 7)), s')).
Proof.
  assert (H1 : strip pear <> []) by (vm_compute; discriminate).
  assert (H2 : int_value (PInt 7) = Some 7) by reflexivity.
  assert (H3 : 0 < 7) by lia.
  assert (H4 : stock_of example_state = PDict example_stock) by reflexivity.
  assert (H5 : dict_wf example_stock).
  { unfold dict_wf. simpl. repeat constructor; simpl; intuition discriminate. }
  assert (H6 : dict_get example_stock pear = Some (PInt 2)) by reflexivity.
  repeat (split; [assumption|]).
  exact (proj1 remove_item_subtracts_or_deletes example_state example_stock
               pear (PInt 7) 7 2 H1 H2 H3 H4 H5 H6).
Defined.

Lemma low_items_run d threshold :
  quantities d -> low_items d threshold = Returned (low_names d threshold).
Proof.
  unfold low_names, dict_keys. induction d as [|[k v] d IH]; intros Hq; simpl.
  - reflexivity.
  - destruct (Hq k v (or_introl eq_refl)) as [z ->]. simpl.
    rewrite IH by (intros k' v' H; apply (Hq k' v'); now right).
    destruct (z <? threshold); reflexivity.
Qed.

Lemma In_low_names d threshold k :
  In k (low_names d threshold) <->
  exists q, In (k, PInt q) d /\ q < threshold.
Proof.
  unfold low_names, dict_keys. rewrite in_map_iff. split.
  - intros [[k' v] [Hk Hin]]. simpl in Hk. subst k'.
    apply filter_In in Hin. destruct Hin as [Hin Hlt]. simpl in Hlt.
    destruct v; try discriminate. exists z. split; [assumption|].
    now apply Z.ltb_lt.
  - intros [q [Hin Hlt]]. exists (k, PInt q). split; [reflexivity|].
    apply filter_In. split; [assumption|]. simpl. now apply Z.ltb_lt.
Qed.

Lemma check_low_items_run s d threshold low :
  stock_of s = PDict d -> low_items d threshold = Returned low ->
  exists message,
    check_low_items threshold s = (Returned low, logged message s).
Proof.
  intros Hd Hlow. destruct s as [self w]. unfold stock_of in Hd. simpl in Hd.
  unfold check_low_items, bind. simpl. rewrite Hd. unfold lift. rewrite Hlow.
  destruct low; rewrite _log_run; eexists; reflexivity.
Qed.

(** C5. On a stock of integer quantities [check_low_items] returns, for every
    threshold, exactly the names whose quantity is strictly below the
    threshold, in the order of the dictionary, and it returns this list
    whether it is empty or not; the stock is not changed.  With the default
    threshold 5, apple 10, banana 5 and pear 2 give pear only. *)
Theorem check_low_items_strictly_below :
  (forall (s : Sys) (d : dict) (threshold : Z),
      stock_of s = PDict d -> quantities d ->
      exists s',
        check_low_items threshold s = (Returned (low_names d threshold), s')
        /\ stock_of s' = stock_of s
        /\ (forall k, In k (low_names d threshold) <->
                      exists q, In (k, PInt q) d /\ q < threshold)
        /\ (forall k, In (k, PInt threshold) d -> dict_wf d ->
                      ~ In k (low_names d threshold)))
  /\ (forall w,
        fst (check_low_items default_threshold
               (with_stock (PDict example_stock) (new_inventory w)))
        = Returned [pear]).
Proof.
  split.
  - intros s d threshold Hd Hq.
    destruct (check_low_items_run s d threshold _ Hd (low_items_run d threshold Hq))
      as [m Hrun].
    exists (logged m s). split; [assumption|]. split; [reflexivity|].
    split; [apply In_low_names|].
    intros k Hin Hwf Hlow. apply In_low_names in Hlow.
    destruct Hlow as [q [Hin' Hlt]].
    apply (In_dict_get d k _ Hwf) in Hin. apply (In_dict_get d k _ Hwf) in Hin'.
    assert (q = threshold) by congruence. lia.
  - intros w. reflexivity.
Qed.

Lemma check_low_items_strictly_below_witness :
  stock_of example_state = PDict example_stock /\ quantities example_stock
  /\ exists s',
       check_low_items 5 example_state
       = (Returned (low_names example_stock 5), s')
       /\ stock_of s' = stock_of example_state
       /\ (forall k, In k (low_names example_stock 5) <->
                     exists q, In (k, PInt q) example_stock /\ q < 5)
       /\ (forall k, In (k, PInt 5) example_stock -> dict_wf example_stock ->
                     ~ In k (low_names example_stock 5)).
Proof.
  assert (H1 : stock_of example_state = PDict example_stock) by reflexivity.
  assert (H2 : quantities example_stock).
  { intros k v Hin. simpl in Hin.
    destruct Hin as [H|[H|[H|[]]]]; inversion H; eexists; reflexivity. }
  split; [exact H1|]. split; [exact H2|].
  exact (proj1 check_low_items_strictly_below example_state example_stock 5
               H1 H2).
Defined.

(** ** Running the persistence methods *)

Lemma load_data_run s :
  load_data s =
  match fs (snd s) (file (fst s)) with
  | Missing _ => (Returned tt, logged msg_fresh s)
  | Directory =>
      (Returned tt, logged (msg_load_error (OSError "IsADirectoryError")) s)
  | Regular _ false _ =>
      (Returned tt, logged (msg_load_error (OSError "PermissionError")) s)
  | Regular content true _ =>
      match json_load content with
      | Returned v =>
          (Returned tt, logged (msg_loaded (file (fst s))) (with_stock v s))
      | Raised e =>
          if os_or_json_error e
          then (Returned tt, logged (msg_load_error e) s)
          else (Raised e, s)
      | OutOfModel => (OutOfModel, s)
      end
  | Unreachable error => (Raised (OSError error), s)
  end.
Proof.
  destruct s as [[f st l] w].
  unfold load_data, path_exists, get_world, lift, ret, bind. simpl.
  destruct (fs w f) as [c|content r wr| |error] eqn:Hn; simpl.
  - reflexivity.
  - unfold try_except, open_r, bind. simpl. rewrite Hn.
    destruct r; simpl.
    + destruct (json_load content) as [v|e|]; reflexivity.
    + reflexivity.
  - unfold try_except, open_r, bind. simpl. rewrite Hn. reflexivity.
  - reflexivity.
Qed.

Lemma save_data_run s :
  save_data s =
  let p := file (fst s) in
  let write r :=
    let s1 := with_node p (Regular [] r true) s in
    match json_dumps (stock_of s) with
    | None => (OutOfModel, s1)
    | Some text =>
        match text_to_bytes text with
        | None => (Raised UnicodeEncodeError, s1)
        | Some bytes =>
            let full := (Returned tt,
                         logged (msg_saved p)
                                (with_node p (Regular bytes r true) s1)) in
            match write_limit (snd s) with
            | Some n =>
                if (n <? List.length bytes)%nat
                then (Returned tt,
                      logged (msg_save_error (OSError "No space left on device"))
                             (with_node p (Regular (firstn n bytes) r true) s1))
                else full
            | None => full
            end
        end
    end in
  match fs (snd s) p with
  | Missing true => write true
  | Missing false =>
      (Returned tt, logged (msg_save_error (OSError "FileNotFoundError")) s)
  | Regular _ r true => write r
  | Regular _ _ false =>
      (Returned tt, logged (msg_save_error (OSError "PermissionError")) s)
  | Directory =>
      (Returned tt, logged (msg_save_error (OSError "IsADirectoryError")) s)
  | Unreachable error =>
      (Returned tt, logged (msg_save_error (OSError error)) s)
  end.
Proof.
  destruct s as [[f st l] w].
  assert (Hup : forall n, fs_update (fs w) f n f = n).
  { intros n. unfold fs_update. destruct (str_eq_dec f f); congruence. }
  unfold save_data, try_except, open_w, write_text, stock_of, bind.
  unfold logged, with_node. simpl.
  destruct (fs w f) as [c|content r wr| |error] eqn:Hn; simpl.
  - destruct c; simpl; [|reflexivity].
    destruct (json_dumps st) as [text|]; simpl; [|reflexivity].
    destruct (text_to_bytes text) as [bytes|]; simpl; [|reflexivity].
    rewrite Hup. destruct (write_limit w) as [n|]; simpl; [|reflexivity].
    destruct (n <? List.length bytes)%nat; simpl; reflexivity.
  - destruct wr; simpl; [|reflexivity].
    destruct (json_dumps st) as [text|]; simpl; [|reflexivity].
    destruct (text_to_bytes text) as [bytes|]; simpl; [|reflexivity].
    rewrite Hup. destruct (write_limit w) as [n|]; simpl; [|reflexivity].
    destruct (n <? List.length bytes)%nat; simpl; reflexivity.
  - reflexivity.
  - reflexivity.
Qed.

(** ** [json.load] reads what [json.dump] wrote *)

Local Open Scope N_scope.

Ltac Zify.zify_post_hook ::= Z.to_euclidean_division_equations.

















Lemma lit_String a s : lit (String a s) = N_of_ascii a :: lit s.
Proof. reflexivity. Qed.

Lemma lit_back s : string_of_list_ascii (List.map ascii_of_N (lit s)) = s.
Proof.
  induction s as [|a s IH]; [reflexivity|].
  rewrite lit_String. cbn [List.map string_of_list_ascii].
  now rewrite ascii_N_embedding, IH.
Qed.

Lemma uint_digits d :
  Forall (fun c => is_digit c = true) (lit (NilEmpty.string_of_uint d)).
Proof.
  induction d; cbn [NilEmpty.string_of_uint]; rewrite ?lit_String;
    constructor; (reflexivity || assumption).
Qed.

Lemma digits_value_uint d :
  digits_value (lit (NilEmpty.string_of_uint d)) = Z.of_uint d.
Proof. unfold digits_value. now rewrite lit_back, NilEmpty.usu. Qed.


Lemma pos_digits_head p :
  exists c ds, lit (NilEmpty.string_of_uint (Pos.to_uint p)) = c :: ds
               /\ c <> 0x30.
Proof.
  assert (Hn : Decimal.unorm (Pos.to_uint p) = Pos.to_uint p).
  { rewrite <- (DecimalPos.Unsigned.to_of (Pos.to_uint p)).
    rewrite DecimalPos.Unsigned.of_to. reflexivity. }
  destruct (Pos.to_uint p) as [|d|d|d|d|d|d|d|d|d|d] eqn:Hp;
    cbn [NilEmpty.string_of_uint]; rewrite ?lit_String;
    try (eexists; eexists; split; [reflexivity|discriminate]).
  - exfalso. now apply (DecimalPos.Unsigned.to_uint_nonnil p).
  - exfalso. rewrite unorm_D0 in Hn.
    destruct d as [|d'|d'|d'|d'|d'|d'|d'|d'|d'|d'] eqn:Hd;
      try (assert (Hlen : (Decimal.nb_digits (Decimal.unorm d) <= Decimal.nb_digits d)%nat)
             by (apply nb_digits_unorm; subst d; discriminate);
           subst d; rewrite Hn in Hlen; cbn [Decimal.nb_digits] in Hlen; lia).
    apply (DecimalPos.Unsigned.to_uint_nonzero p). exact Hp.
Qed.



Lemma int_repr_cases z :
  exists (neg : bool) d ds,
    int_repr z = (if neg then [0x2D] else []) ++ d :: ds
    /\ Forall (fun c => is_digit c = true) (d :: ds)
    /\ (d <> 0x30 \/ ds = [])
    /\ (if neg then - digits_value (d :: ds) else digits_value (d :: ds))%Z = z.
Proof.
  unfold int_repr. destruct z as [|p|p]; cbn [Z.to_int NilEmpty.string_of_int].
  - exists false, 0x30, []. repeat split; [repeat constructor|now right].
  - destruct (pos_digits_head p) as [c [ds [Hcd Hc]]].
    exists false, c, ds. split; [exact Hcd|]. split.
    { rewrite <- Hcd. apply uint_digits. }
    split; [now left|].
    rewrite <- Hcd, digits_value_uint. unfold Z.of_uint.
    now rewrite DecimalPos.Unsigned.of_to.
  - destruct (pos_digits_head p) as [c [ds [Hcd Hc]]].
    exists true, c, ds. rewrite lit_String, Hcd. split; [reflexivity|]. split.
    { rewrite <- Hcd. apply uint_digits. }
    split; [now left|].
    rewrite <- Hcd, digits_value_uint. unfold Z.of_uint.
    now rewrite DecimalPos.Unsigned.of_to.
Qed.


(** *** Tokens *)

















(** *** Sorting *)

Lemma insert_item_perm {A} (x : str * A) l : Permutation (insert_item x l) (x :: l).
Proof.
  induction l as [|y l IH]; cbn [insert_item]; [reflexivity|].
  destruct (str_ltb (fst y) (fst x)); [|reflexivity].
  rewrite IH. apply perm_swap.
Qed.

Lemma sort_items_perm {A} (l : list (str * A)) : Permutation (sort_items l) l.
Proof.
  induction l as [|x l IH]; cbn [sort_items]; [reflexivity|].
  rewrite insert_item_perm. now constructor.
Qed.

Lemma insert_item_map {A B} (f : A -> B) (x : str * A) l :
  insert_item (fst x, f (snd x)) (List.map (fun kv => (fst kv, f (snd kv))) l)
  = List.map (fun kv => (fst kv, f (snd kv))) (insert_item x l).
Proof.
  induction l as [|y l IH]; cbn [insert_item List.map fst]; [reflexivity|].
  destruct (str_ltb (fst y) (fst x)); cbn [List.map]; [|reflexivity].
  now rewrite IH.
Qed.

Lemma sort_items_map {A B} (f : A -> B) (l : list (str * A)) :
  sort_items (List.map (fun kv => (fst kv, f (snd kv))) l)
  = List.map (fun kv => (fst kv, f (snd kv))) (sort_items l).
Proof.
  induction l as [|x l IH]; cbn [sort_items List.map]; [reflexivity|].
  rewrite IH. apply insert_item_map.
Qed.



(** *** Plain text *)

Ltac plain_list :=
  repeat (apply Forall_cons; [unfold plain; lia|]); apply Forall_nil.

Lemma plain_hex_digit n : plain (hex_digit (n mod 16)).
Proof.
  assert (H : n mod 16 < 16) by (apply N.mod_lt; discriminate).
  unfold hex_digit, plain. destruct (N.ltb_spec (n mod 16) 10); lia.
Qed.

Lemma plain_backslash_u n : Forall plain (backslash_u n).
Proof.
  unfold backslash_u, hex4.
  repeat (apply Forall_cons;
          [first [apply plain_hex_digit | unfold plain; lia]|]).
  apply Forall_nil.
Qed.

Lemma plain_escape_char c : Forall plain (escape_char c).
Proof.
  unfold escape_char.
  repeat match goal with
         | |- context [if ?x =? ?y then _ else _] =>
             destruct (N.eqb_spec x y);
             [plain_list|]
         end.
  destruct ((0x20 <=? c) && (c <=? 0x7E)) eqn:Hp.
  - apply andb_prop in Hp. destruct Hp as [H1 H2].
    apply N.leb_le in H1, H2. plain_list.
  - destruct (c <? 0x10000); [apply plain_backslash_u|].
    cbv zeta. apply Forall_app. split; apply plain_backslash_u.
Qed.

Lemma plain_encode_string k : Forall plain (encode_basestring_ascii k).
Proof.
  unfold encode_basestring_ascii. constructor; [unfold plain; lia|].
  apply Forall_app. split; [|plain_list].
  induction k as [|c k IH]; cbn [flat_map]; [constructor|].
  apply Forall_app. split; [apply plain_escape_char|assumption].
Qed.

Lemma plain_int_repr z : Forall plain (int_repr z).
Proof.
  destruct (int_repr_cases z) as [neg [d [ds [Hr [Hds _]]]]]. rewrite Hr.
  assert (Hdigits : Forall plain (d :: ds)).
  { eapply Forall_impl; [|exact Hds]. intros c Hc. unfold is_digit in Hc.
    apply andb_prop in Hc. destruct Hc as [H1 H2].
    apply N.leb_le in H1, H2. unfold plain. lia. }
  destruct neg; [|assumption]. constructor; [unfold plain; lia|assumption].
Qed.

Lemma plain_newline_indent level : Forall plain (newline_indent level).
Proof.
  unfold newline_indent. constructor; [now left|].
  induction (4 * level)%nat; constructor; [unfold plain; lia|assumption].
Qed.

Lemma plain_join sep l :
  Forall plain sep -> Forall (Forall plain) l -> Forall plain (join sep l).
Proof.
  intros Hsep Hl. induction Hl as [|x l Hx Hl IH]; [constructor|].
  destruct l as [|y l]; [assumption|].
  change (join sep (x :: y :: l)) with (x ++ sep ++ join sep (y :: l)).
  apply Forall_app. split; [assumption|].
  apply Forall_app. split; assumption.
Qed.

Lemma utf8_encode_plain t : Forall plain t -> utf8_encode t = Some t.
Proof.
  induction 1 as [|c t Hc Ht IH]; [reflexivity|].
  cbn [utf8_encode]. rewrite IH. unfold utf8_encode_char.
  destruct (N.ltb_spec c 0x80); [reflexivity|]. unfold plain in Hc. lia.
Qed.

Lemma to_bytes_plain t :
  Forall plain t ->
  exists bytes, to_bytes t = Some bytes /\ List.map Byte.to_N bytes = t.
Proof.
  induction 1 as [|c t Hc Ht [bytes [Hb Hm]]]; [exists []; split; reflexivity|].
  destruct (Byte.of_N c) as [b|] eqn:Hbyte.
  - exists (b :: bytes). cbn [to_bytes List.map]. rewrite Hbyte, Hb.
    split; [reflexivity|]. apply Byte.to_of_N in Hbyte.
    now rewrite Hbyte, Hm.
  - apply Byte.of_N_None_iff in Hbyte. unfold plain in Hc. lia.
Qed.

Lemma utf8_decode_plain t : Forall plain t -> utf8_decode t = Some t.
Proof.
  induction 1 as [|c t Hc Ht IH]; [reflexivity|].
  cbn [utf8_decode]. rewrite IH.
  destruct (N.ltb_spec c 0x80); [reflexivity|]. unfold plain in Hc. lia.
Qed.

Lemma universal_newlines_plain t : Forall plain t -> universal_newlines t = t.
Proof.
  induction 1 as [|c t Hc Ht IH]; [reflexivity|].
  cbn [universal_newlines]. rewrite IH.
  destruct (N.eqb_spec c 0x0D); [|reflexivity]. unfold plain in Hc. lia.
Qed.

(** A text that is plain is read back as it was written. *)
Lemma read_back text :
  Forall plain text ->
  exists bytes, text_to_bytes text = Some bytes
                /\ read_text bytes = Returned text.
Proof.
  intros Hp. destruct (to_bytes_plain text Hp) as [bytes [Hb Hm]].
  exists bytes. unfold text_to_bytes, read_text.
  rewrite utf8_encode_plain by assumption. split; [assumption|].
  rewrite Hm, utf8_decode_plain by assumption.
  now rewrite universal_newlines_plain.
Qed.

(** *** The text of a dictionary of integers *)

Lemma traverse_as_dict level items :
  traverse (with_key (encode level)) (as_dict items) = Some (as_texts items).
Proof.
  induction items as [|[k z] items IH]; [reflexivity|].
  cbn [as_dict List.map traverse] in *. unfold as_dict in IH. rewrite IH.
  reflexivity.
Qed.

Lemma json_dumps_as_dict items :
  json_dumps (PDict (as_dict items)) = Some (object_text items).
Proof.
  unfold json_dumps, object_text. destruct items as [|kz items]; [reflexivity|].
  cbn [encode as_dict List.map].
  change ((fst kz, PInt (snd kz))
          :: List.map (fun kz0 => (fst kz0, PInt (snd kz0))) items)
    with (as_dict (kz :: items)).
  rewrite traverse_as_dict. unfold as_texts. rewrite sort_items_map.
  reflexivity.
Qed.






Local Close Scope N_scope.

(** ** Saving and loading *)







Lemma example_stock_wf : dict_wf example_stock.
Proof.
  unfold dict_wf. simpl. repeat constructor; simpl; intuition discriminate.
Qed.

Lemma example_stock_quantities : quantities example_stock.
Proof.
  intros k v Hin. simpl in Hin.
  destruct Hin as [H|[H|[H|[]]]]; inversion H; eexists; reflexivity.
Qed.


(** C7.  The specification says that [load_data] lets no error through.  The code
    lets two through, with a stock that was not empty and is kept.  A file
    that is not valid UTF-8 makes [f.read()] raise [UnicodeDecodeError],
    which the handler of [OSError] and [JSONDecodeError] does not name.
    A path that is out of reach makes [self.file.exists()], which stands
    before the [try], raise an [OSError].  The failures next to these are
    caught and logged: a text that is not JSON, a path that is a
    directory. *)
Theorem load_data_propagates_errors :
  let undecodable := with_stock (PDict example_stock)
                       (new_inventory (world_with latin1_file)) in
  let out_of_reach := with_stock (PDict example_stock)
                        (new_inventory unreachable_world) in
  let malformed := with_stock (PDict example_stock)
                     (new_inventory (world_with truncated_file)) in
  let directory := with_stock (PDict example_stock)
                     (new_inventory directory_world) in
  load_data undecodable = (Raised UnicodeDecodeError, undecodable)
  /\ load_data out_of_reach
     = (Raised (OSError "PermissionError"), out_of_reach)
  /\ load_data malformed
     = (Returned tt, logged (msg_load_error JSONDecodeError) malformed)
  /\ load_data directory
     = (Returned tt,
        logged (msg_load_error (OSError "IsADirectoryError")) directory)
  /\ stock_of undecodable = PDict example_stock
  /\ stock_of out_of_reach = PDict example_stock.
Proof. vm_compute. repeat split. Qed.


(** C9.  The specification says that an error which ends the [with]
    block is logged.  [__exit__] tests the truth value of the exception, not its
    presence: in [with Inventory() as inv], in a directory without file, a
    block that adds ten apples and raises an exception that is false is
    saved, and the exception goes on to the caller like any other, but no
    entry is written for it.  The same block with an exception that is
    true gets the entry. *)
Theorem exit_does_not_log_false_exception :
  let s := snd (__init__ (AsStr (lit "inventory.json")) empty_world) in
  let quiet := with_inventory silent_block s in
  let loud := with_inventory failing_block s in
  let stamp message := Lit (lit "2025-01-01 00:00:00") :: T " - " :: message in
  let added := [T "Added "; Fmt (PInt 10); T " of '"; Fmt (PStr apple);
                T "'. Total: "; Fmt (PInt 10)] in
  let written := Regular (bytes_of (lit "{" ++ [0x0A%N] ++ lit "    "
                                    ++ quoted "apple" ++ lit ": 10"
                                    ++ [0x0A%N] ++ lit "}")) true true in
  fst quiet = Raised (UserError "Empty" false)
  /\ fs (snd (snd quiet)) (lit "inventory.json") = written
  /\ logs_of (snd quiet)
     = [stamp msg_fresh; stamp added; stamp (msg_saved (lit "inventory.json"))]
  /\ fst loud = Raised (UserError "ValueError" true)
  /\ fs (snd (snd loud)) (lit "inventory.json") = written
  /\ logs_of (snd loud)
     = [stamp msg_fresh; stamp added; stamp (msg_saved (lit "inventory.json"));
        stamp (msg_exit_error (UserError "ValueError" true))].
Proof. vm_compute. repeat split. Qed.

(** C10. [load_data] does not validate what it reads: when the file is read
    and parsed, the stock becomes the parsed value, whatever it is.  A file
    with a zero and a negative quantity gives a stock with these
    quantities, which breaks the invariant of the stock. *)
Theorem load_data_does_not_validate :
  (forall (s : Sys) (content : list byte) (wr : bool) (v : pyval),
      fs (snd s) (file (fst s)) = Regular content true wr ->
      json_load content = Returned v ->
      load_data s
      = (Returned tt, logged (msg_loaded (file (fst s))) (with_stock v s)))
  /\ (let r := load_data (new_inventory (world_with nonpositive_file)) in
      fst r = Returned tt
      /\ stock_of (snd r) = PDict [(apple, PInt 0); (pear, PInt (-3))]
      /\ fst (get_qty (PStr apple) (snd r)) = Returned (PInt 0)
      /\ fst (get_qty (PStr pear) (snd r)) = Returned (PInt (-3))
      /\ ~ stock_invariant (snd r)).
Proof.
  split.
  - intros s content wr v Hn Hv. rewrite load_data_run, Hn, Hv. reflexivity.
  - cbv zeta.
    assert (Hst : stock_of (snd (load_data
                                  (new_inventory (world_with nonpositive_file))))
                  = PDict [(apple, PInt 0); (pear, PInt (-3))])
      by (vm_compute; reflexivity).
    split; [vm_compute; reflexivity|]. split; [exact Hst|].
    split; [vm_compute; reflexivity|]. split; [vm_compute; reflexivity|].
    intros [d [Hd [_ [Hpos _]]]]. rewrite Hst in Hd. inversion Hd; subst d.
    destruct (Hpos apple (PInt 0) (or_introl eq_refl)) as [z [Hz Hlt]].
    inversion Hz; subst z. lia.
Qed.

Lemma load_data_does_not_validate_witness :
  let s := new_inventory (world_with nonpositive_file) in
  fs (snd s) (file (fst s)) = Regular nonpositive_file true true
  /\ json_load nonpositive_file
     = Returned (PDict [(apple, PInt 0); (pear, PInt (-3))])
  /\ load_data s
     = (Returned tt,
        logged (msg_loaded (file (fst s)))
               (with_stock (PDict [(apple, PInt 0); (pear, PInt (-3))]) s)).
Proof.
  cbv zeta.
  assert (H1 : fs (snd (new_inventory (world_with nonpositive_file)))
                  (file (fst (new_inventory (world_with nonpositive_file))))
               = Regular nonpositive_file true true) by reflexivity.
  assert (H2 : json_load nonpositive_file
               = Returned (PDict [(apple, PInt 0); (pear, PInt (-3))]))
    by (vm_compute; reflexivity).
  split; [exact H1|]. split; [exact H2|].
  exact (proj1 load_data_does_not_validate _ _ _ _ H1 H2).
Defined.

(** The demonstration of [main], in a world without file: the block ends
    normally and the file holds the three items, sorted and indented. *)
Example main_writes_the_inventory :
  let r := main empty_world in
  fst r = Returned tt
  /\ stock_of (snd r) = PDict [(apple, PInt 7); (banana, PInt 5); (pear, PInt 2)]
  /\ fs (snd (snd r)) (lit "inventory.json")
     = Regular
         (bytes_of (lit "{" ++ [0x0A%N]
                    ++ lit "    " ++ quoted "apple" ++ lit ": 7," ++ [0x0A%N]
                    ++ lit "    " ++ quoted "banana" ++ lit ": 5," ++ [0x0A%N]
                    ++ lit "    " ++ quoted "pear" ++ lit ": 2" ++ [0x0A%N]
                    ++ lit "}"))
         true true.
Proof. vm_compute. repeat split. Qed.

(** * Further properties of the methods

    What follows holds for every state of the object and of the outside
    world, unless a hypothesis says otherwise. *)

(** ** What a method leaves alone *)

#[export] Instance same_object_step : Step same_object.
Proof.
  split; [intros s; split; reflexivity|].
  intros s1 s2 s3 [H1 H2] [H3 H4]. split; congruence.
Qed.

#[export] Instance same_files_step : Step same_files.
Proof.
  split; [intros s; split; reflexivity|].
  intros s1 s2 s3 [H1 H2] [H3 H4]. split; congruence.
Qed.

#[export] Instance other_files_kept_step : Step other_files_kept.
Proof.
  split; [intros s; split; reflexivity|].
  intros s1 s2 s3 [H1 H2] [H3 H4]. split; [congruence|].
  intros q Hq. rewrite H4 by congruence. now apply H2.
Qed.

Lemma stamp_app clock t l1 l2 :
  stamp clock t (l1 ++ l2)
  = stamp clock t l1 ++ stamp clock (t + List.length l1) l2.
Proof.
  revert t. induction l1 as [|m l1 IH]; intros t; cbn [stamp app List.length].
  - now rewrite Nat.add_0_r.
  - rewrite IH. now rewrite Nat.add_succ_r.
Qed.

#[export] Instance log_step_step : Step log_step.
Proof.
  split.
  - intros s. split; [reflexivity|]. exists []. cbn [stamp List.length].
    rewrite !List.app_nil_r, Nat.add_0_r. repeat split.
  - intros s1 s2 s3 [Hc1 [l1 [H1 [H2 H3]]]] [Hc2 [l2 [H4 [H5 H6]]]].
    split; [congruence|]. exists (l1 ++ l2). cbv zeta.
    rewrite stamp_app, H4, H1, H5, H2, H6, H3, Hc1, !app_assoc, length_app.
    repeat split. lia.
Qed.

Section Keeps.
Context (R : Sys -> Sys -> Prop) `{Step R}.

Lemma keeps_ret {A} (a : A) : keeps R (ret a).
Proof. intros s. apply step_refl. Qed.

Lemma keeps_lift {A} (r : result A) : keeps R (lift r).
Proof. intros s. apply step_refl. Qed.

Lemma keeps_get_stock : keeps R get_stock.
Proof. intros s. apply step_refl. Qed.

Lemma keeps_get_file : keeps R get_file.
Proof. intros s. apply step_refl. Qed.

Lemma keeps_get_world : keeps R get_world.
Proof. intros s. apply step_refl. Qed.

Lemma keeps_bind {A B} (c : M A) (k : A -> M B) :
  keeps R c -> (forall a, keeps R (k a)) -> keeps R (bind c k).
Proof.
  intros Hc Hk s. unfold bind. specialize (Hc s).
  destruct (c s) as [[a|e|] s1]; simpl in *; try assumption.
  apply step_trans with s1; [assumption|apply Hk].
Qed.

Lemma keeps_try_except {A} (body : M A) caught handler :
  keeps R body -> (forall e, keeps R (handler e)) ->
  keeps R (try_except body caught handler).
Proof.
  intros Hb Hh s. unfold try_except. specialize (Hb s).
  destruct (body s) as [[a|e|] s1]; simpl in *; try assumption.
  destruct (caught e); [|assumption].
  apply step_trans with s1; [assumption|apply Hh].
Qed.
End Keeps.

Lemma same_object_log m : keeps same_object (_log m).
Proof. intros s. rewrite _log_run. split; reflexivity. Qed.

Lemma same_object_print l : keeps same_object (print l).
Proof. intros [self w]. split; reflexivity. Qed.

Lemma same_object_set_node p n : keeps same_object (set_node p n).
Proof. intros [self w]. split; reflexivity. Qed.

Lemma same_files_log m : keeps same_files (_log m).
Proof. intros s. rewrite _log_run. split; reflexivity. Qed.

Lemma same_files_print l : keeps same_files (print l).
Proof. intros [self w]. split; reflexivity. Qed.

Lemma same_files_set_stock v : keeps same_files (set_stock v).
Proof. intros [self w]. split; reflexivity. Qed.

Lemma log_step_log m : keeps log_step (_log m).
Proof.
  intros s. rewrite _log_run. split; [reflexivity|]. exists [m].
  unfold logged, logs_of. cbn [fst snd logs stdout tick stamp List.length].
  repeat split. lia.
Qed.

Lemma log_step_set_stock v : keeps log_step (set_stock v).
Proof. intros [self w]. apply (step_refl (R := log_step) (self, w)). Qed.

Lemma log_step_set_node p n : keeps log_step (set_node p n).
Proof. intros [self w]. apply (step_refl (R := log_step) (self, w)). Qed.

Create HintDb keeps.
#[export] Hint Resolve same_object_log same_object_print same_object_set_node
  same_files_log same_files_print same_files_set_stock
  log_step_log log_step_set_stock log_step_set_node : keeps.

Ltac keeps_step :=
  first
    [ solve [auto with keeps]
    | apply keeps_bind; [exact _| |intro]
    | apply keeps_try_except; [exact _| |intro]
    | apply keeps_ret; exact _
    | apply keeps_lift; exact _
    | apply keeps_get_stock; exact _
    | apply keeps_get_file; exact _
    | apply keeps_get_world; exact _
    | match goal with
      | |- keeps _ (if ?b then _ else _) => destruct b
      | |- keeps _ (match ?x with _ => _ end) => destruct x
      end ].

Ltac keeps_all := repeat keeps_step.

Lemma same_files_validate item qty : keeps same_files (validate item qty).
Proof. unfold validate, _validate_item, _validate_qty. keeps_all. Qed.

Lemma same_files_add_item item qty : keeps same_files (add_item item qty).
Proof. unfold add_item, validate, _validate_item, _validate_qty. keeps_all. Qed.

Lemma same_files_remove_item item qty : keeps same_files (remove_item item qty).
Proof. unfold remove_item, validate, _validate_item, _validate_qty. keeps_all. Qed.

Lemma same_files_get_qty item : keeps same_files (get_qty item).
Proof. unfold get_qty. keeps_all. Qed.

Lemma same_files_check_low_items t : keeps same_files (check_low_items t).
Proof. unfold check_low_items. keeps_all. Qed.

Lemma same_files_print_lines items : keeps same_files (print_lines items).
Proof.
  induction items as [|[k v] items IH]; cbn [print_lines]; keeps_all.
Qed.

Lemma same_files_print_data : keeps same_files print_data.
Proof.
  pose proof same_files_print_lines. unfold print_data. keeps_all.
Qed.

Lemma same_files_load_data : keeps same_files load_data.
Proof. unfold load_data, path_exists, open_r. keeps_all. Qed.

Lemma same_object_validate item qty : keeps same_object (validate item qty).
Proof. unfold validate, _validate_item, _validate_qty. keeps_all. Qed.

Lemma same_object_get_qty item : keeps same_object (get_qty item).
Proof. unfold get_qty. keeps_all. Qed.

Lemma same_object_check_low_items t : keeps same_object (check_low_items t).
Proof. unfold check_low_items. keeps_all. Qed.

Lemma same_object_print_lines items : keeps same_object (print_lines items).
Proof.
  induction items as [|[k v] items IH]; cbn [print_lines]; keeps_all.
Qed.

Lemma same_object_print_data : keeps same_object print_data.
Proof. pose proof same_object_print_lines. unfold print_data. keeps_all. Qed.

Lemma same_object_save_data : keeps same_object save_data.
Proof. unfold save_data, open_w, write_text. keeps_all. Qed.

Lemma log_step_add_item item qty : keeps log_step (add_item item qty).
Proof. unfold add_item, validate, _validate_item, _validate_qty. keeps_all. Qed.

Lemma log_step_remove_item item qty : keeps log_step (remove_item item qty).
Proof. unfold remove_item, validate, _validate_item, _validate_qty. keeps_all. Qed.

Lemma log_step_get_qty item : keeps log_step (get_qty item).
Proof. unfold get_qty. keeps_all. Qed.

Lemma log_step_check_low_items t : keeps log_step (check_low_items t).
Proof. unfold check_low_items. keeps_all. Qed.

Lemma log_step_save_data : keeps log_step save_data.
Proof. unfold save_data, open_w, write_text. keeps_all. Qed.

Lemma log_step_load_data : keeps log_step load_data.
Proof. unfold load_data, path_exists, open_r. keeps_all. Qed.

Lemma log_step_exit exc : keeps log_step (__exit__ exc).
Proof. pose proof log_step_save_data. unfold __exit__. keeps_all. Qed.

(** ** The validators *)

Lemma lstrip_nil k : lstrip k = [] <-> has_visible k = false.
Proof.
  unfold has_visible. induction k as [|c k IH]; cbn [lstrip existsb].
  - tauto.
  - destruct (is_space c); cbn [negb orb]; [exact IH|].
    split; discriminate.
Qed.

Lemma has_visible_rev k : has_visible (rev k) = has_visible k.
Proof.
  unfold has_visible. induction k as [|c k IH]; [reflexivity|].
  cbn [rev existsb]. rewrite existsb_app, IH. cbn [existsb].
  rewrite orb_false_r. apply orb_comm.
Qed.

Lemma has_visible_lstrip k : has_visible (lstrip k) = has_visible k.
Proof.
  unfold has_visible. induction k as [|c k IH]; [reflexivity|].
  cbn [lstrip]. destruct (is_space c) eqn:Hc; [|reflexivity].
  cbn [existsb]. rewrite Hc. exact IH.
Qed.

Lemma strip_nil k : strip k = [] <-> has_visible k = false.
Proof.
  unfold strip, rstrip.
  rewrite <- (has_visible_lstrip k), <- (has_visible_rev (lstrip k)).
  rewrite <- lstrip_nil. split; intros H.
  - rewrite <- (rev_involutive (lstrip (rev (lstrip k)))), H. reflexivity.
  - rewrite H. reflexivity.
Qed.

Lemma _validate_item_run item s :
  _validate_item item s
  = if match item with PStr k => has_visible k | _ => false end
    then (Returned true, s)
    else (Returned false, logged (msg_invalid_item item) s).
Proof.
  unfold _validate_item, bind.
  destruct item; cbn [isinstance_str negb orb]; try (rewrite _log_run; reflexivity).
  destruct (has_visible s0) eqn:Hv.
  - destruct (strip s0) eqn:Hs; [|reflexivity].
    apply strip_nil in Hs. congruence.
  - apply strip_nil in Hv. rewrite Hv. cbn [negb]. rewrite _log_run. reflexivity.
Qed.

Lemma _validate_qty_run qty s :
  _validate_qty qty s
  = if match int_value qty with Some z => 0 <? z | None => false end
    then (Returned true, s)
    else (Returned false, logged (msg_invalid_qty qty) s).
Proof.
  unfold _validate_qty, bind.
  destruct qty as [| b | z | | | |]; cbn [isinstance_int int_value negb orb];
    try (rewrite _log_run; reflexivity).
  - destruct b; cbn; [reflexivity|rewrite _log_run; reflexivity].
  - destruct (Z.leb_spec z 0), (Z.ltb_spec 0 z); try lia;
      [rewrite _log_run|]; reflexivity.
Qed.

Lemma has_visible_In k :
  has_visible k = true <-> exists c, In c k /\ is_space c = false.
Proof.
  unfold has_visible. rewrite existsb_exists.
  split; intros [c [Hin Hc]]; exists c; split; trivial;
    destruct (is_space c); trivial; discriminate.
Qed.

(** X1. [_validate_item] never raises.  It accepts exactly the strings that
    hold a character that is not white space, and then leaves the state
    alone; for every other value (not a string, empty, blank) it returns
    [False] after one log entry that shows the [repr] of the value. *)
Theorem validate_item_accepts_visible_strings item s :
  exists b : bool,
    _validate_item item s
    = (Returned b, if b then s else logged (msg_invalid_item item) s)
    /\ (b = true <->
        exists k, item = PStr k /\ exists c, In c k /\ is_space c = false).
Proof.
  rewrite _validate_item_run.
  destruct item as [| | | |k| |];
    try (exists false; split; [reflexivity|];
         split; [discriminate|intros [k [H _]]; discriminate]).
  destruct (has_visible k) eqn:Hv.
  - exists true. split; [reflexivity|]. split; [|reflexivity].
    intros _. exists k. split; [reflexivity|]. now apply has_visible_In.
  - exists false. split; [reflexivity|]. split; [discriminate|].
    intros [k' [Hk Hc]]. inversion Hk; subst k'.
    apply has_visible_In in Hc. congruence.
Qed.

(** X2. [_validate_qty] never raises.  It accepts exactly [True] and the
    integers greater than zero; for every other value ([False], zero, a
    negative integer, anything that is not an [int]) it returns [False]
    after one log entry that shows the [repr] of the value. *)
Theorem validate_qty_accepts_positive_ints qty s :
  exists b : bool,
    _validate_qty qty s
    = (Returned b, if b then s else logged (msg_invalid_qty qty) s)
    /\ (b = true <-> qty = PBool true \/ exists z, qty = PInt z /\ 0 < z).
Proof.
  rewrite _validate_qty_run.
  destruct qty as [| b | z | | | |]; cbn [int_value];
    try (exists false; split; [reflexivity|];
         split; [discriminate|intros [H|[z [H _]]]; discriminate]).
  - destruct b; cbn.
    + exists true. split; [reflexivity|]. split; [now left|reflexivity].
    + exists false. split; [reflexivity|].
      split; [discriminate|intros [H|[z [H _]]]; discriminate].
  - destruct (Z.ltb_spec 0 z).
    + exists true. split; [reflexivity|]. split; [|reflexivity].
      intros _. right. now exists z.
    + exists false. split; [reflexivity|].
      split; [discriminate|intros [Hb|[z' [Hz Hp]]]; [discriminate|]].
      inversion Hz; subst. lia.
Qed.

Lemma validate_run item qty s :
  validate item qty s
  = if match item with PStr k => has_visible k | _ => false end
    then if match int_value qty with Some z => 0 <? z | None => false end
         then (Returned true, s)
         else (Returned false, logged (msg_invalid_qty qty) s)
    else (Returned false, logged (msg_invalid_item item) s).
Proof.
  unfold validate, bind. rewrite _validate_item_run.
  destruct (match item with PStr k => has_visible k | _ => false end).
  - apply _validate_qty_run.
  - reflexivity.
Qed.

(** X3. A call of [add_item] or [remove_item] with a refused argument
    writes one log entry, that of the first check that fails, and nothing
    else: when the name is refused the quantity is not looked at, so that a
    call where both are wrong reports the name only. *)
Theorem refused_call_logs_first_failure item qty s :
  (forall k, item = PStr k -> has_visible k = false)
  \/ (forall z, int_value qty = Some z -> z <= 0) ->
  let message :=
    if match item with PStr k => has_visible k | _ => false end
    then msg_invalid_qty qty else msg_invalid_item item in
  add_item item qty s = (Returned tt, logged message s)
  /\ remove_item item qty s = (Returned tt, logged message s).
Proof.
  intros Hbad message. subst message.
  unfold add_item, remove_item, bind. rewrite validate_run.
  destruct (match item with PStr k => has_visible k | _ => false end) eqn:Hi.
  - assert (Hq : match int_value qty with Some z => 0 <? z | None => false end
                 = false).
    { destruct Hbad as [H|H].
      - destruct item; try discriminate. rewrite (H s0 eq_refl) in Hi.
        discriminate.
      - destruct (int_value qty) as [z|]; [|reflexivity].
        specialize (H z eq_refl). apply Z.ltb_ge. exact H. }
    rewrite Hq. split; reflexivity.
  - split; reflexivity.
Qed.

Lemma refused_call_logs_first_failure_witness :
  add_item (PStr (lit "  ")) (PInt (-1)) example_state
  = (Returned tt, logged (msg_invalid_item (PStr (lit "  "))) example_state)
  /\ remove_item (PStr (lit "  ")) (PInt (-1)) example_state
     = (Returned tt, logged (msg_invalid_item (PStr (lit "  "))) example_state).
Proof.
  apply (refused_call_logs_first_failure (PStr (lit "  ")) (PInt (-1))).
  left. intros k Hk. inversion Hk. reflexivity.
Defined.

(** ** Printing and saving *)

#[export] Instance prints_only_step : Step prints_only.
Proof.
  split.
  - intros s. repeat split. exists []. now rewrite List.app_nil_r.
  - intros s1 s2 s3 (Ho1 & Hf1 & Ht1 & l1 & Hl1) (Ho2 & Hf2 & Ht2 & l2 & Hl2).
    split; [congruence|]. split; [exact (step_trans s1 s2 s3 Hf1 Hf2)|].
    split; [congruence|]. exists (l1 ++ l2).
    rewrite Hl2, Hl1. now rewrite app_assoc.
Qed.

Lemma prints_only_print l : keeps prints_only (print l).
Proof. intros [self w]. repeat split. now exists [l]. Qed.

#[export] Hint Resolve prints_only_print : keeps.

Lemma prints_only_print_lines items : keeps prints_only (print_lines items).
Proof.
  induction items as [|[item qty] items IH]; cbn [print_lines]; keeps_all.
Qed.

Lemma prints_only_print_data : keeps prints_only print_data.
Proof. pose proof prints_only_print_lines. unfold print_data. keeps_all. Qed.

Lemma other_files_kept_save_data : keeps other_files_kept save_data.
Proof.
  intros s. rewrite save_data_run. cbv zeta.
  assert (Hnode : forall n q, q <> file (fst s) ->
            fs_update (fs (snd s)) (file (fst s)) n q = fs (snd s) q).
  { intros n q Hq. unfold fs_update. destruct (str_eq_dec q (file (fst s)));
      [contradiction|reflexivity]. }
  assert (Hnode2 : forall n m q, q <> file (fst s) ->
            fs_update (fs_update (fs (snd s)) (file (fst s)) n)
                      (file (fst s)) m q = fs (snd s) q).
  { intros n m q Hq. unfold fs_update. destruct (str_eq_dec q (file (fst s)));
      [contradiction|reflexivity]. }
  unfold other_files_kept, logged, with_node.
  destruct (fs (snd s) (file (fst s))) as [[|]|c r [|]| |error];
    cbn [fst snd file fs];
    repeat match goal with
           | |- context [match ?x with _ => _ end] => destruct x
           end;
    cbn [fst snd file fs]; split; trivial; intros q Hq;
    auto.
Qed.

Lemma other_files_kept_log m : keeps other_files_kept (_log m).
Proof. intros s. rewrite _log_run. split; reflexivity. Qed.

Lemma other_files_kept_exit exc : keeps other_files_kept (__exit__ exc).
Proof.
  pose proof other_files_kept_save_data. pose proof other_files_kept_log.
  unfold __exit__. keeps_all.
Qed.

Lemma same_object_exit exc : keeps same_object (__exit__ exc).
Proof. pose proof same_object_save_data. unfold __exit__. keeps_all. Qed.

(** X4. Only saving touches the files: [add_item], [remove_item],
    [get_qty], [check_low_items], [print_data] and [load_data] leave every
    file as it was, for every state and every argument, whether they return
    or raise. *)
Theorem only_saving_touches_the_files (s : Sys) (item qty : pyval) (t : Z) :
  same_files s (snd (add_item item qty s))
  /\ same_files s (snd (remove_item item qty s))
  /\ same_files s (snd (get_qty item s))
  /\ same_files s (snd (check_low_items t s))
  /\ same_files s (snd (print_data s))
  /\ same_files s (snd (load_data s)).
Proof.
  repeat match goal with |- _ /\ _ => split end;
    [ apply same_files_add_item | apply same_files_remove_item
    | apply same_files_get_qty | apply same_files_check_low_items
    | apply same_files_print_data | apply same_files_load_data ].
Qed.

(** X5. [get_qty], [check_low_items], [print_data], [save_data] and
    [__exit__] never change the stock nor the file name of the object, for
    every state and every argument, whether they return or raise. *)
Theorem queries_and_saving_keep_the_stock (s : Sys) (item : pyval) (t : Z)
  (exc : option exn) :
  same_object s (snd (get_qty item s))
  /\ same_object s (snd (check_low_items t s))
  /\ same_object s (snd (print_data s))
  /\ same_object s (snd (save_data s))
  /\ same_object s (snd (__exit__ exc s)).
Proof.
  repeat match goal with |- _ /\ _ => split end;
    [ apply same_object_get_qty | apply same_object_check_low_items
    | apply same_object_print_data | apply same_object_save_data
    | apply same_object_exit ].
Qed.

(** X6. The log only grows, and what is logged is printed: after
    [add_item], [remove_item], [check_low_items], [save_data], [load_data]
    and [__exit__] the log is the former log followed by new entries, the
    standard output has grown by the same entries in the same order, and
    each entry is a reading of the clock, [" - "] and a message, the clock
    being read once for each entry, when the entry is written. *)
Theorem log_only_grows_and_is_printed (s : Sys) (item qty : pyval) (t : Z)
  (exc : option exn) :
  log_step s (snd (add_item item qty s))
  /\ log_step s (snd (remove_item item qty s))
  /\ log_step s (snd (check_low_items t s))
  /\ log_step s (snd (save_data s))
  /\ log_step s (snd (load_data s))
  /\ log_step s (snd (__exit__ exc s)).
Proof.
  repeat match goal with |- _ /\ _ => split end;
    [ apply log_step_add_item | apply log_step_remove_item
    | apply log_step_check_low_items | apply log_step_save_data
    | apply log_step_load_data | apply log_step_exit ].
Qed.

(** X7. [print_data] only prints: the object (stock, file name, log) and
    the files are as before, the clock is not read, and the standard output
    has only grown. *)
Theorem print_data_only_prints (s : Sys) : prints_only s (snd (print_data s)).
Proof. apply prints_only_print_data. Qed.

(** X8. [save_data] and [__exit__] write to no path but that of the
    object: every other file is as before, and the file name is kept. *)
Theorem saving_writes_one_path (s : Sys) (exc : option exn) :
  other_files_kept s (snd (save_data s))
  /\ other_files_kept s (snd (__exit__ exc s)).
Proof.
  split; [apply other_files_kept_save_data|apply other_files_kept_exit].
Qed.

Lemma trace_keeps (R : Sys -> Sys -> Prop) `{Step R} :
  (forall c, keeps R (run_call c)) ->
  forall cs s r, In r (trace cs s) -> R s (snd r).
Proof.
  intros Hcall cs. induction cs as [|c cs IH]; intros s r Hin; [destruct Hin|].
  cbn [trace] in Hin. destruct Hin as [<-|Hin]; [apply Hcall|].
  destruct (fst (run_call c s)); try destruct Hin.
  apply step_trans with (snd (run_call c s)); [apply Hcall|].
  apply IH. exact Hin.
Qed.

(** X9. Along any sequence of calls of [add_item] and [remove_item], with
    any arguments, every state reached has the files of the first one, and
    a log and a standard output that extend those of the first one by the
    same entries, stamped with successive readings of the clock. *)
Theorem calls_keep_files_and_extend_log (cs : list call) (s : Sys)
  (r : result unit * Sys) :
  In r (trace cs s) -> same_files s (snd r) /\ log_step s (snd r).
Proof.
  intros Hin. split.
  - apply (trace_keeps same_files) with cs; [|exact Hin].
    intros [item qty|item qty];
      [apply same_files_add_item|apply same_files_remove_item].
  - apply (trace_keeps log_step) with cs; [|exact Hin].
    intros [item qty|item qty];
      [apply log_step_add_item|apply log_step_remove_item].
Qed.

Lemma calls_keep_files_and_extend_log_witness :
  same_files example_state (snd (add_item (PStr apple) (PInt 3) example_state))
  /\ log_step example_state
              (snd (add_item (PStr apple) (PInt 3) example_state)).
Proof.
  apply (calls_keep_files_and_extend_log [AddItem (PStr apple) (PInt 3)]
           example_state (add_item (PStr apple) (PInt 3) example_state)).
  left. reflexivity.
Defined.

(** ** Calls one after the other *)

Lemma dict_del_set_same d k v : dict_del (dict_set d k v) k = dict_del d k.
Proof.
  induction d as [|[k' v'] d IH]; cbn [dict_set dict_del].
  - destruct (str_eq_dec k k); [reflexivity|contradiction].
  - destruct (str_eq_dec k k') as [->|Hk]; cbn [dict_del].
    + destruct (str_eq_dec k' k'); [reflexivity|contradiction].
    + destruct (str_eq_dec k k'); [contradiction|]. now rewrite IH.
Qed.

Lemma dict_set_set d k a b : dict_set (dict_set d k a) k b = dict_set d k b.
Proof.
  induction d as [|[k' v'] d IH]; cbn [dict_set].
  - destruct (str_eq_dec k k); [reflexivity|contradiction].
  - destruct (str_eq_dec k k') as [->|Hk]; cbn [dict_set].
    + destruct (str_eq_dec k' k'); [reflexivity|contradiction].
    + destruct (str_eq_dec k k'); [contradiction|]. now rewrite IH.
Qed.

Lemma dict_set_stored d k v : dict_get d k = Some v -> dict_set d k v = d.
Proof.
  induction d as [|[k' v'] d IH]; cbn [dict_set dict_get]; [discriminate|].
  destruct (str_eq_dec k k') as [->|Hk]; intros H.
  - now inversion H.
  - now rewrite IH.
Qed.

Lemma dict_del_absent d k : dict_get d k = None -> dict_del d k = d.
Proof.
  induction d as [|[k' v'] d IH]; cbn [dict_del dict_get]; [reflexivity|].
  destruct (str_eq_dec k k') as [->|Hk]; intros H; [discriminate|].
  now rewrite IH.
Qed.

Lemma stock_after_bind {A B} (c : M A) (k : A -> M B) s a s1 :
  c s = (Returned a, s1) -> stock_after (bind c k) s = stock_after (k a) s1.
Proof. intros H. unfold stock_after, bind. now rewrite H. Qed.

Lemma quantities_get d k v :
  quantities d -> dict_get d k = Some v -> v = PInt (quantity_of d k).
Proof.
  intros Hq Hget. unfold quantity_of. rewrite Hget.
  apply dict_get_In in Hget. destruct (Hq k v Hget) as [z ->]. reflexivity.
Qed.

Lemma quantities_set d k z : quantities d -> quantities (dict_set d k (PInt z)).
Proof.
  intros Hq k' v' Hin. apply In_dict_set in Hin.
  destruct Hin as [[_ ->]|Hin]; [now exists z|exact (Hq k' v' Hin)].
Qed.

Lemma quantity_of_set d k z : quantity_of (dict_set d k (PInt z)) k = z.
Proof. unfold quantity_of. now rewrite dict_get_set_same. Qed.

Lemma add_item_quantities s d k qty q :
  stock_of s = PDict d -> quantities d ->
  strip k <> [] -> int_value qty = Some q -> 0 < q ->
  add_item (PStr k) qty s
  = (Returned tt,
     logged [T "Added "; Fmt qty; T " of '"; Fmt (PStr k); T "'. Total: ";
             Fmt (PInt (quantity_of d k + q))]
            (with_stock (PDict (dict_set d k (PInt (quantity_of d k + q)))) s)).
Proof.
  intros Hd Hquant Hk Hv Hq.
  apply add_item_run with q; trivial.
  destruct (dict_get d k) as [v|] eqn:Hget.
  - rewrite (quantities_get d k v Hquant Hget). now apply int_value_add.
  - unfold quantity_of. rewrite Hget. now apply int_value_add.
Qed.

Lemma remove_item_quantities s d k qty q :
  stock_of s = PDict d -> quantities d ->
  strip k <> [] -> int_value qty = Some q -> 0 < q ->
  remove_item (PStr k) qty s
  = (Returned tt,
     match dict_get d k with
     | None => logged [T "Item '"; Fmt (PStr k); T "' not found in inventory."] s
     | Some _ =>
         if quantity_of d k - q <=? 0
         then logged [T "'"; Fmt (PStr k);
                      T "' removed from inventory (out of stock)."]
                (with_stock (PDict (dict_del d k)) s)
         else logged [T "Removed "; Fmt qty; T " of '"; Fmt (PStr k);
                      T "'. Remaining: "; Fmt (PInt (quantity_of d k - q))]
                (with_stock (PDict (dict_set d k (PInt (quantity_of d k - q)))) s)
     end).
Proof.
  intros Hd Hquant Hk Hv Hq.
  destruct (dict_get d k) as [v|] eqn:Hget.
  - rewrite (quantities_get d k v Hquant Hget) in Hget.
    rewrite (remove_item_run s d k qty q (quantity_of d k)) by assumption.
    now rewrite dict_del_set_same.
  - now apply remove_item_missing with d q.
Qed.

(** X10. Adding a quantity of an item and removing the same quantity gives
    back the very stock the object had, with its items in their former
    order, when the stock holds integers and the item was absent or had a
    positive quantity. *)
Theorem add_then_remove_restores_stock (s : Sys) (d : dict) (k : str)
  (qty : pyval) (q : Z) :
  stock_of s = PDict d -> quantities d ->
  strip k <> [] -> int_value qty = Some q -> 0 < q ->
  dict_get d k = None \/ 0 < quantity_of d k ->
  fst ((add_item (PStr k) qty ;;; remove_item (PStr k) qty) s) = Returned tt
  /\ stock_after (add_item (PStr k) qty ;;; remove_item (PStr k) qty) s
     = PDict d.
Proof.
  intros Hd Hquant Hk Hv Hq Hcur. unfold stock_after, bind.
  rewrite (add_item_quantities s d k qty q) by assumption.
  set (total := quantity_of d k + q).
  rewrite (remove_item_quantities _ (dict_set d k (PInt total)) k qty q);
    trivial; [|now apply quantities_set].
  rewrite dict_get_set_same, quantity_of_set. split; [reflexivity|].
  cbn [snd]. subst total. replace (quantity_of d k + q - q) with (quantity_of d k) by lia.
  destruct Hcur as [Hnone|Hpos].
  - unfold quantity_of. rewrite Hnone. cbn [Z.leb Z.compare].
    rewrite stock_of_logged, stock_of_with_stock, dict_del_set_same.
    now rewrite dict_del_absent.
  - destruct (Z.leb_spec (quantity_of d k) 0); [lia|].
    rewrite stock_of_logged, stock_of_with_stock, dict_set_set.
    destruct (dict_get d k) as [v|] eqn:Hget.
    + rewrite dict_set_stored; [reflexivity|].
      rewrite Hget. f_equal. now apply quantities_get.
    + unfold quantity_of in Hpos. rewrite Hget in Hpos. lia.
Qed.

Lemma add_then_remove_restores_stock_witness :
  fst ((add_item (PStr banana) (PInt 4) ;;; remove_item (PStr banana) (PInt 4))
         example_state) = Returned tt
  /\ stock_after (add_item (PStr banana) (PInt 4) ;;;
                  remove_item (PStr banana) (PInt 4)) example_state
     = PDict example_stock.
Proof.
  apply (add_then_remove_restores_stock example_state example_stock banana
           (PInt 4) 4).
  - reflexivity.
  - exact example_stock_quantities.
  - discriminate.
  - reflexivity.
  - lia.
  - right. vm_compute. reflexivity.
Defined.

(** X11. Two calls of [add_item] for one item leave the stock that one call
    with the sum of the quantities leaves, when the stock holds integers. *)
Theorem add_item_twice_adds_the_sum (s : Sys) (d : dict) (k : str)
  (q1 q2 : Z) :
  stock_of s = PDict d -> quantities d -> strip k <> [] ->
  0 < q1 -> 0 < q2 ->
  stock_after (add_item (PStr k) (PInt q1) ;;; add_item (PStr k) (PInt q2)) s
  = stock_after (add_item (PStr k) (PInt (q1 + q2))) s
  /\ stock_after (add_item (PStr k) (PInt (q1 + q2))) s
     = PDict (dict_set d k (PInt (quantity_of d k + q1 + q2))).
Proof.
  intros Hd Hquant Hk Hq1 Hq2. unfold stock_after, bind.
  rewrite (add_item_quantities s d k (PInt q1) q1) by trivial.
  rewrite (add_item_quantities _ (dict_set d k (PInt (quantity_of d k + q1)))
             k (PInt q2) q2); trivial; [|now apply quantities_set].
  rewrite (add_item_quantities s d k (PInt (q1 + q2)) (q1 + q2));
    trivial; [|lia].
  cbn [snd].
  rewrite !stock_of_logged, !stock_of_with_stock, dict_set_set, quantity_of_set.
  rewrite Z.add_assoc. split; reflexivity.
Qed.

Lemma add_item_twice_adds_the_sum_witness :
  stock_after (add_item (PStr pear) (PInt 1) ;;; add_item (PStr pear) (PInt 2))
              example_state
  = stock_after (add_item (PStr pear) (PInt (1 + 2))) example_state
  /\ stock_after (add_item (PStr pear) (PInt (1 + 2))) example_state
     = PDict (dict_set example_stock pear
                (PInt (quantity_of example_stock pear + 1 + 2))).
Proof.
  apply (add_item_twice_adds_the_sum example_state example_stock pear 1 2).
  - reflexivity.
  - exact example_stock_quantities.
  - discriminate.
  - lia.
  - lia.
Defined.

(** X12. Two calls of [remove_item] for one item leave the stock that one
    call with the sum of the quantities leaves, when the stock holds
    integers: the item is deleted as soon as the quantities removed reach
    what was stored, and a second removal of a deleted item changes
    nothing. *)
Theorem remove_item_twice_removes_the_sum (s : Sys) (d : dict) (k : str)
  (q1 q2 : Z) :
  stock_of s = PDict d -> dict_wf d -> quantities d -> strip k <> [] ->
  0 < q1 -> 0 < q2 ->
  stock_after (remove_item (PStr k) (PInt q1) ;;;
               remove_item (PStr k) (PInt q2)) s
  = stock_after (remove_item (PStr k) (PInt (q1 + q2))) s.
Proof.
  intros Hd Hwf Hquant Hk Hq1 Hq2. unfold stock_after, bind.
  rewrite (remove_item_quantities s d k (PInt q1) q1) by trivial.
  rewrite (remove_item_quantities s d k (PInt (q1 + q2)) (q1 + q2));
    trivial; [|lia].
  cbn [snd].
  destruct (dict_get d k) as [v|] eqn:Hget.
  - destruct (Z.leb_spec (quantity_of d k - q1) 0) as [Hout|Hleft].
    + destruct (Z.leb_spec (quantity_of d k - (q1 + q2)) 0); [|lia].
      rewrite (remove_item_quantities _ (dict_del d k) k (PInt q2) q2);
        trivial.
      * now rewrite dict_get_del_same.
      * intros k' v' Hin. apply (Hquant k' v'). now apply In_dict_del in Hin.
    + rewrite (remove_item_quantities _
                 (dict_set d k (PInt (quantity_of d k - q1))) k (PInt q2) q2);
        trivial; [|now apply quantities_set].
      rewrite dict_get_set_same, quantity_of_set.
      replace (quantity_of d k - q1 - q2) with (quantity_of d k - (q1 + q2))
        by lia.
      cbn [snd].
      destruct (quantity_of d k - (q1 + q2) <=? 0);
        rewrite !stock_of_logged, !stock_of_with_stock.
      * now rewrite dict_del_set_same.
      * now rewrite dict_set_set.
  - rewrite (remove_item_missing _ d k (PInt q2) q2); trivial.
Qed.

Lemma remove_item_twice_removes_the_sum_witness :
  stock_after (remove_item (PStr apple) (PInt 4) ;;;
               remove_item (PStr apple) (PInt 7)) example_state
  = stock_after (remove_item (PStr apple) (PInt (4 + 7))) example_state.
Proof.
  apply (remove_item_twice_removes_the_sum example_state example_stock apple
           4 7).
  - reflexivity.
  - exact example_stock_wf.
  - exact example_stock_quantities.
  - discriminate.
  - lia.
  - lia.
Defined.

(** ** The order of the names *)

Lemma str_ltb_irrefl a : str_ltb a a = false.
Proof.
  induction a as [|x a IH]; [reflexivity|]. cbn [str_ltb].
  now rewrite N.ltb_irrefl, N.eqb_refl, IH.
Qed.

Lemma str_ltb_trans a b c :
  str_ltb a b = true -> str_ltb b c = true -> str_ltb a c = true.
Proof.
  revert b c. induction a as [|x a IH]; intros [|y b] [|z c]; cbn [str_ltb];
    try discriminate; trivial.
  intros Hab Hbc.
  apply orb_true_iff in Hab. apply orb_true_iff in Hbc. apply orb_true_iff.
  destruct Hab as [Hab|Hab], Hbc as [Hbc|Hbc];
    rewrite ?andb_true_iff, ?N.ltb_lt, ?N.eqb_eq in *.
  - left. lia.
  - left. destruct Hbc. lia.
  - left. destruct Hab. lia.
  - right. destruct Hab as [-> Hab], Hbc as [-> Hbc]. split; [reflexivity|].
    now apply IH with b.
Qed.

Lemma str_ltb_total a b :
  str_ltb a b = false -> str_ltb b a = false -> a = b.
Proof.
  revert b. induction a as [|x a IH]; intros [|y b]; cbn [str_ltb];
    try discriminate; trivial.
  intros Hab Hba.
  apply orb_false_iff in Hab. apply orb_false_iff in Hba.
  destruct Hab as [Hxy Hab], Hba as [Hyx Hba].
  apply N.ltb_ge in Hxy. apply N.ltb_ge in Hyx.
  assert (x = y) by lia. subst y. rewrite N.eqb_refl in Hab, Hba.
  cbn [andb] in Hab, Hba. f_equal. now apply IH.
Qed.

Lemma str_ltb_asym a b : str_ltb a b = true -> str_ltb b a = false.
Proof.
  intros Hab. destruct (str_ltb b a) eqn:Hba; [|reflexivity].
  rewrite <- (str_ltb_irrefl a). symmetry. now apply str_ltb_trans with b.
Qed.

(** ** Sorted items *)

Lemma Forall_insert_item {A} (P : str * A -> Prop) x l :
  P x -> Forall P l -> Forall P (insert_item x l).
Proof.
  intros Hx Hl. induction Hl as [|y l Hy Hl IH]; cbn [insert_item].
  - now constructor.
  - destruct (str_ltb (fst y) (fst x)); constructor; trivial.
    now constructor.
Qed.

Lemma increasing_insert_item {A} (x : str * A) l :
  ~ In (fst x) (List.map fst l) -> increasing l -> increasing (insert_item x l).
Proof.
  induction l as [|y l IH]; cbn [insert_item increasing List.map In].
  - intros _ _. split; [constructor|exact I].
  - intros Hnew [Hy Hl].
    destruct (str_ltb (fst y) (fst x)) eqn:Hyx; cbn [increasing].
    + split; [|apply IH; tauto]. now apply Forall_insert_item.
    + assert (Hxy : str_ltb (fst x) (fst y) = true).
      { destruct (str_ltb (fst x) (fst y)) eqn:Hxy; [reflexivity|].
        exfalso. apply Hnew. left. symmetry. now apply str_ltb_total. }
      split; [|now split]. constructor; [exact Hxy|].
      eapply Forall_impl; [|exact Hy]. intros z Hz. cbn beta in Hz.
      now apply str_ltb_trans with (fst y).
Qed.

Lemma sort_items_keys {A} (l : list (str * A)) k :
  In k (List.map fst (sort_items l)) <-> In k (List.map fst l).
Proof.
  split; apply Permutation_in, Permutation_map;
    [|symmetry]; apply sort_items_perm.
Qed.

Lemma sort_items_increasing {A} (l : list (str * A)) :
  NoDup (List.map fst l) -> increasing (sort_items l).
Proof.
  induction l as [|x l IH]; cbn [sort_items List.map]; [intros _; exact I|].
  intros Hnd. inversion Hnd as [|k ks Hnew Hrest]; subst.
  apply increasing_insert_item; [|now apply IH].
  now rewrite sort_items_keys.
Qed.

Lemma increasing_unique {A} (l1 l2 : list (str * A)) :
  increasing l1 -> increasing l2 -> Permutation l1 l2 -> l1 = l2.
Proof.
  revert l2. induction l1 as [|x l1 IH]; intros l2 H1 H2 Hp.
  - apply Permutation_nil in Hp. now subst.
  - destruct l2 as [|y l2]; [symmetry in Hp; now apply Permutation_nil in Hp|].
    destruct H1 as [Hx H1], H2 as [Hy H2].
    assert (Hxy : x = y).
    { assert (Hin1 : In x (y :: l2)) by (apply (Permutation_in _ Hp); now left).
      assert (Hin2 : In y (x :: l1)).
      { apply (Permutation_in _ (Permutation_sym Hp)). now left. }
      destruct Hin1 as [->|Hin1]; [reflexivity|].
      destruct Hin2 as [->|Hin2]; [reflexivity|].
      rewrite Forall_forall in Hx, Hy.
      specialize (Hx y Hin2). specialize (Hy x Hin1).
      apply str_ltb_asym in Hx. congruence. }
    subst y. f_equal. apply IH; trivial.
    now apply Permutation_cons_inv with x.
Qed.

Lemma sort_items_canonical {A} (l1 l2 : list (str * A)) :
  NoDup (List.map fst l1) -> Permutation l1 l2 -> sort_items l1 = sort_items l2.
Proof.
  intros Hnd Hp. apply increasing_unique.
  - now apply sort_items_increasing.
  - apply sort_items_increasing.
    apply (Permutation_NoDup (Permutation_map fst Hp) Hnd).
  - rewrite (sort_items_perm l1), Hp. symmetry. apply sort_items_perm.
Qed.

Lemma sort_items_sorted {A} (l : list (str * A)) :
  increasing l -> sort_items l = l.
Proof.
  induction l as [|x l IH]; cbn [sort_items increasing]; [reflexivity|].
  intros [Hx Hl]. rewrite IH by exact Hl.
  destruct l as [|y l]; [reflexivity|]. cbn [insert_item].
  inversion Hx as [|? ? Hxy _]; subst. now rewrite (str_ltb_asym _ _ Hxy).
Qed.

(** ** The report *)

Lemma print_run line s : print line s = (Returned tt, printed [line] s).
Proof. destruct s as [self w]. reflexivity. Qed.

Lemma printed_printed l1 l2 s : printed l2 (printed l1 s) = printed (l1 ++ l2) s.
Proof. unfold printed. cbn [fst snd fs write_limit tick clock stdout].
  now rewrite app_assoc. Qed.

Lemma printed_nil s : printed [] s = s.
Proof.
  destruct s as [self [f l t c o]]. unfold printed. cbn.
  now rewrite List.app_nil_r.
Qed.

Lemma print_lines_run items s :
  print_lines items s = (Returned tt, printed (report_lines items) s).
Proof.
  revert s. induction items as [|[item qty] items IH]; intros s;
    cbn [print_lines report_lines List.map].
  - unfold ret. now rewrite printed_nil.
  - unfold bind. rewrite print_run, IH, printed_printed. reflexivity.
Qed.

Lemma print_data_run s d :
  stock_of s = PDict d ->
  print_data s
  = (Returned tt,
     printed (report_header
              :: match d with
                 | [] => [[T "No items in stock."]]
                 | _ => report_lines (sort_items d)
                 end) s).
Proof.
  intros Hd. unfold print_data, bind. rewrite print_run.
  unfold get_stock. cbn [fst snd printed]. unfold stock_of in Hd. rewrite Hd.
  unfold lift. cbn [py_bool].
  destruct d as [|kv d]; cbn [negb].
  - rewrite print_run, printed_printed. reflexivity.
  - rewrite print_lines_run, printed_printed. reflexivity.
Qed.

(** X13. On a stock that is a dictionary [print_data] returns, having printed
    the header and then either the line [No items in stock.], when the
    dictionary is empty, or one line [name: quantity] for each item, each
    item once, in the strictly increasing order of the names, whatever the
    order of insertion and whatever the quantities are. *)
Theorem print_data_lists_items_by_name (s : Sys) (d : dict) :
  stock_of s = PDict d -> dict_wf d ->
  exists items,
    print_data s
    = (Returned tt,
       printed (report_header
                :: match d with
                   | [] => [[T "No items in stock."]]
                   | _ => report_lines items
                   end) s)
    /\ Permutation items d
    /\ increasing items.
Proof.
  intros Hd Hwf. exists (sort_items d). split; [now apply print_data_run|].
  split; [apply sort_items_perm|now apply sort_items_increasing].
Qed.

Lemma print_data_lists_items_by_name_witness :
  exists items,
    print_data (with_stock (PDict [(pear, PInt 2); (apple, PInt 7)])
                           (new_inventory empty_world))
    = (Returned tt,
       printed (report_header :: report_lines items)
               (with_stock (PDict [(pear, PInt 2); (apple, PInt 7)])
                           (new_inventory empty_world)))
    /\ Permutation items [(pear, PInt 2); (apple, PInt 7)]
    /\ increasing items.
Proof.
  apply (print_data_lists_items_by_name
           (with_stock (PDict [(pear, PInt 2); (apple, PInt 7)])
                       (new_inventory empty_world))
           [(pear, PInt 2); (apple, PInt 7)]).
  - reflexivity.
  - unfold dict_wf. cbn. repeat constructor; cbn; intuition discriminate.
Defined.

(** ** The file does not depend on the order of insertion *)

Lemma traverse_perm {A B} (f : A -> option B) l1 l2 :
  Permutation l1 l2 ->
  match traverse f l1, traverse f l2 with
  | Some t1, Some t2 => Permutation t1 t2
  | None, None => True
  | _, _ => False
  end.
Proof.
  induction 1 as [|x l1 l2 Hp IH|x y l|l1 l2 l3 Hp1 IH1 Hp2 IH2];
    cbn [traverse].
  - constructor.
  - destruct (f x); [|exact I].
    destruct (traverse f l1), (traverse f l2); trivial. now constructor.
  - destruct (f x), (f y), (traverse f l); trivial. constructor.
  - destruct (traverse f l1), (traverse f l2), (traverse f l3); trivial;
      try contradiction. now transitivity l0.
Qed.

Lemma traverse_with_key_keys {A B} (f : A -> option B) l ts :
  traverse (with_key f) l = Some ts -> List.map fst ts = List.map fst l.
Proof.
  revert ts. induction l as [|[k v] l IH]; intros ts; cbn [traverse].
  - intros H. now inversion H.
  - unfold with_key at 1. cbn [fst snd]. destruct (f v); [|discriminate].
    destruct (traverse (with_key f) l) as [ts'|]; [|discriminate].
    intros H. inversion H. cbn [List.map fst]. now rewrite (IH ts' eq_refl).
Qed.

Lemma encode_dict_perm level d1 d2 :
  dict_wf d1 -> Permutation d1 d2 ->
  encode level (PDict d1) = encode level (PDict d2).
Proof.
  intros Hwf Hp.
  destruct d1 as [|x1 d1], d2 as [|x2 d2].
  - reflexivity.
  - now apply Permutation_nil in Hp.
  - symmetry in Hp. now apply Permutation_nil in Hp.
  - cbn [encode].
    pose proof (traverse_perm (with_key (encode (S level))) _ _ Hp) as Ht.
    destruct (traverse (with_key (encode (S level))) (x1 :: d1)) as [t1|] eqn:H1,
             (traverse (with_key (encode (S level))) (x2 :: d2)) as [t2|] eqn:H2;
      try contradiction; [|reflexivity].
    rewrite (sort_items_canonical t1 t2); [reflexivity| |exact Ht].
    rewrite (traverse_with_key_keys _ _ _ H1). exact Hwf.
Qed.

(** X14. The file that [save_data] writes does not depend on the order in
    which the items were put in the stock: two objects with the same file
    name whose stocks hold the same items, in any order, leave the same
    outside world (files and standard output) and the same result. *)
Theorem saved_file_ignores_insertion_order (s1 s2 : Sys) (d1 d2 : dict) :
  stock_of s1 = PDict d1 -> stock_of s2 = PDict d2 ->
  dict_wf d1 -> Permutation d1 d2 ->
  file (fst s1) = file (fst s2) -> snd s1 = snd s2 ->
  fst (save_data s1) = fst (save_data s2)
  /\ snd (snd (save_data s1)) = snd (snd (save_data s2)).
Proof.
  intros Hd1 Hd2 Hwf Hp Hfile Hworld.
  destruct s1 as [[f1 st1 l1] w1], s2 as [[f2 st2 l2] w2].
  unfold stock_of in Hd1, Hd2. cbn [fst snd file stock_data] in *.
  subst f2 w2 st1 st2. rewrite !save_data_run. cbv zeta.
  unfold stock_of, json_dumps. cbn [fst snd file stock_data].
  rewrite (encode_dict_perm 0%nat d1 d2 Hwf Hp).
  unfold logged, with_node. cbn [fst snd file stock_data logs fs write_limit
                                 tick clock stdout].
  repeat match goal with
         | |- context [match ?x with _ => _ end] => destruct x
         end; split; reflexivity.
Qed.

Lemma saved_file_ignores_insertion_order_witness :
  fst (save_data example_state)
  = fst (save_data (with_stock (PDict (rev example_stock)) example_state))
  /\ snd (snd (save_data example_state))
     = snd (snd (save_data (with_stock (PDict (rev example_stock))
                                       example_state))).
Proof.
  apply (saved_file_ignores_insertion_order example_state
           (with_stock (PDict (rev example_stock)) example_state)
           example_stock (rev example_stock)).
  - reflexivity.
  - reflexivity.
  - exact example_stock_wf.
  - apply Permutation_rev.
  - reflexivity.
  - reflexivity.
Defined.

(** ** Saving what was read *)







(** ** A stock that is not a dictionary of integers *)

(** X17. When the stock is not a dictionary, as after [load_data] has read a
    JSON text that is not an object, [add_item] with valid arguments,
    [get_qty] and [check_low_items] raise [AttributeError] and change
    nothing, while [print_data] prints the header and then either
    [No items in stock.], when the value is false, or raises
    [AttributeError]. *)
Theorem methods_need_a_dictionary (s : Sys) (k : str) (qty : pyval) (q t : Z)
  (truth : bool) :
  (forall d, stock_of s <> PDict d) ->
  strip k <> [] -> int_value qty = Some q -> 0 < q ->
  py_bool (stock_of s) = Returned truth ->
  add_item (PStr k) qty s
  = (Raised (AttributeError "object has no attribute 'get'"), s)
  /\ get_qty (PStr k) s
     = (Raised (AttributeError "object has no attribute 'get'"), s)
  /\ check_low_items t s
     = (Raised (AttributeError "object has no attribute 'items'"), s)
  /\ print_data s
     = if truth
       then (Raised (AttributeError "object has no attribute 'items'"),
             printed [report_header] s)
       else (Returned tt,
             printed [report_header; [T "No items in stock."]] s).
Proof.
  intros Hnot Hk Hv Hq Htruth.
  unfold add_item, bind. rewrite (validate_ok k qty q) by assumption.
  unfold get_qty, check_low_items, print_data, bind, get_stock, lift.
  rewrite print_run. cbn [negb fst snd printed].
  unfold stock_of in Hnot, Htruth. rewrite Htruth.
  destruct (stock_data (fst s)) eqn:Hstock;
    try (exfalso; now apply (Hnot d)); cbn [py_get];
    (repeat split; try reflexivity);
    destruct truth; cbn [negb]; try reflexivity;
    rewrite print_run, printed_printed; reflexivity.
Qed.

Lemma methods_need_a_dictionary_witness :
  let s := with_stock (PList [PInt 1]) (new_inventory empty_world) in
  add_item (PStr apple) (PInt 2) s
  = (Raised (AttributeError "object has no attribute 'get'"), s)
  /\ get_qty (PStr apple) s
     = (Raised (AttributeError "object has no attribute 'get'"), s)
  /\ check_low_items 5 s
     = (Raised (AttributeError "object has no attribute 'items'"), s)
  /\ print_data s
     = (Raised (AttributeError "object has no attribute 'items'"),
        printed [report_header] s).
Proof.
  intros s.
  apply (methods_need_a_dictionary s apple (PInt 2) 2 5 true).
  - discriminate.
  - discriminate.
  - reflexivity.
  - lia.
  - reflexivity.
Defined.

Lemma low_items_not_a_number d t :
  (exists k v, In (k, v) d /\ as_num v = NotNum) ->
  (forall k v, In (k, v) d -> as_num v <> NumFloat) ->
  low_items d t = Raised (TypeError "'<' not supported").
Proof.
  induction d as [|[k v] d IH]; intros [k0 [v0 [Hin Hbad]]] Hnofloat;
    [destruct Hin|].
  cbn [low_items]. unfold py_lt_int.
  destruct (as_num v) eqn:Hv.
  - destruct Hin as [Heq|Hin]; [inversion Heq; subst; congruence|].
    rewrite IH; [reflexivity|now exists k0, v0|].
    intros k' v' H. apply (Hnofloat k' v'). now right.
  - exfalso. apply (Hnofloat k v); [now left|exact Hv].
  - reflexivity.
Qed.

(** X18. A quantity that is not a number, as [load_data] may store one from
    a JSON text ([null], a string, an array, an object), is returned as it
    is by [get_qty], and makes [add_item] and [remove_item] for that item
    raise [TypeError] and change nothing; [check_low_items] raises
    [TypeError] as soon as one quantity of the stock is not a number. *)
Theorem stored_quantity_must_be_a_number (s : Sys) (d : dict) (k : str)
  (v qty : pyval) (q t : Z) :
  stock_of s = PDict d -> dict_get d k = Some v -> as_num v = NotNum ->
  (forall k' v', In (k', v') d -> as_num v' <> NumFloat) ->
  strip k <> [] -> int_value qty = Some q -> 0 < q ->
  get_qty (PStr k) s = (Returned v, s)
  /\ add_item (PStr k) qty s
     = (Raised (TypeError "unsupported operand type(s) for +"), s)
  /\ remove_item (PStr k) qty s
     = (Raised (TypeError "unsupported operand type(s) for -"), s)
  /\ check_low_items t s = (Raised (TypeError "'<' not supported"), s).
Proof.
  intros Hd Hget Hbad Hnofloat Hk Hv Hq.
  assert (Hqty : exists z, as_num qty = NumInt z).
  { destruct qty; try discriminate; eexists; reflexivity. }
  destruct Hqty as [z Hz].
  assert (Hadd : py_add v qty
                 = Raised (TypeError "unsupported operand type(s) for +")).
  { destruct v; try discriminate Hbad; destruct qty; try discriminate Hv;
      reflexivity. }
  assert (Hsub : py_sub v qty
                 = Raised (TypeError "unsupported operand type(s) for -")).
  { unfold py_sub. now rewrite Hbad. }
  split; [rewrite (get_qty_run s d k Hd), Hget; reflexivity|].
  unfold add_item, remove_item, check_low_items, bind.
  rewrite (validate_ok k qty q) by assumption.
  unfold get_stock, lift. cbn [negb fst snd]. unfold stock_of in Hd.
  rewrite Hd. cbn [py_get py_contains py_getitem]. rewrite Hget, Hadd.
  cbn [negb]. rewrite Hsub.
  rewrite (low_items_not_a_number d t); [repeat split| |exact Hnofloat].
  exists k, v. split; [now apply dict_get_In|exact Hbad].
Qed.

Lemma stored_quantity_must_be_a_number_witness :
  let s := with_stock (PDict [(apple, PNone)]) (new_inventory empty_world) in
  get_qty (PStr apple) s = (Returned PNone, s)
  /\ add_item (PStr apple) (PInt 1) s
     = (Raised (TypeError "unsupported operand type(s) for +"), s)
  /\ remove_item (PStr apple) (PInt 1) s
     = (Raised (TypeError "unsupported operand type(s) for -"), s)
  /\ check_low_items 5 s = (Raised (TypeError "'<' not supported"), s).
Proof.
  intros s.
  apply (stored_quantity_must_be_a_number s [(apple, PNone)] apple PNone
           (PInt 1) 1 5).
  - reflexivity.
  - reflexivity.
  - reflexivity.
  - intros k' v' [H|[]]. inversion H. discriminate.
  - discriminate.
  - reflexivity.
  - lia.
Defined.

(** ** [save_data] on any stock *)

Local Open Scope N_scope.

Lemma traverse_Forall {A B} (f : A -> option B) (Q : B -> Prop) l ts :
  Forall (fun x => forall y, f x = Some y -> Q y) l ->
  traverse f l = Some ts -> Forall Q ts.
Proof.
  intros Hl. revert ts. induction Hl as [|x l Hx Hl IH]; intros ts;
    cbn [traverse].
  - intros H. inversion H. constructor.
  - destruct (f x) as [y|] eqn:Hy; [|discriminate].
    destruct (traverse f l) as [ys|]; [|discriminate].
    intros H. inversion H. constructor; [now apply Hx|now apply IH].
Qed.

Lemma plain_item_separator level : Forall plain (item_separator level).
Proof.
  unfold item_separator. constructor; [unfold plain; lia|].
  apply plain_newline_indent.
Qed.

Lemma plain_item_text kt : Forall plain (snd kt) -> Forall plain (item_text kt).
Proof.
  intros H. unfold item_text, key_separator.
  apply Forall_app. split; [apply plain_encode_string|].
  apply Forall_cons; [unfold plain; lia|].
  apply Forall_cons; [unfold plain; lia|]. exact H.
Qed.

Ltac written H :=
  match type of H with
  | Some ?a = Some ?b =>
      let E := fresh in
      assert (E : a = b) by congruence; rewrite <- E; clear E H
  end.

Lemma plain_encode v :
  forall level text, encode level v = Some text -> Forall plain text.
Proof.
  induction v as [|b|z|l|s|l IH|d IH] using pyval_nested_ind;
    intros level text H; cbn [encode] in H.
  - inversion H. change (lit "null") with [0x6E; 0x75; 0x6C; 0x6C]. plain_list.
  - destruct b; inversion H.
    + change (lit "true") with [0x74; 0x72; 0x75; 0x65]. plain_list.
    + change (lit "false") with [0x66; 0x61; 0x6C; 0x73; 0x65]. plain_list.
  - inversion H. apply plain_int_repr.
  - discriminate H.
  - inversion H. apply plain_encode_string.
  - destruct l as [|x l].
    + inversion H. change (lit "[]") with [0x5B; 0x5D]. plain_list.
    + destruct (traverse (encode (S level)) (x :: l)) as [ts|] eqn:Hts;
        [|discriminate H].
      written H.
      apply Forall_cons; [unfold plain; lia|].
      apply Forall_app. split; [apply plain_newline_indent|].
      apply Forall_app. split.
      * apply plain_join; [apply plain_item_separator|].
        apply (traverse_Forall (encode (S level)) _ (x :: l)); [|exact Hts].
        eapply Forall_impl; [|exact IH]. intros y Hy text'. apply Hy.
      * apply Forall_app. split; [apply plain_newline_indent|plain_list].
  - destruct d as [|x d].
    + inversion H. change (lit "{}") with [0x7B; 0x7D]. plain_list.
    + destruct (traverse (with_key (encode (S level))) (x :: d)) as [ts|] eqn:Hts;
        [|discriminate H].
      written H.
      apply Forall_cons; [unfold plain; lia|].
      apply Forall_app. split; [apply plain_newline_indent|].
      apply Forall_app. split.
      * apply plain_join; [apply plain_item_separator|].
        apply Forall_map.
        assert (Hplain : Forall (fun kt => Forall plain (snd kt)) ts).
        { apply (traverse_Forall (with_key (encode (S level))) _ (x :: d));
            [|exact Hts].
          eapply Forall_impl; [|exact IH]. intros kv Hkv kt Hkt.
          unfold with_key in Hkt.
          destruct (encode (S level) (snd kv)) as [t'|] eqn:Ht';
            [|discriminate Hkt].
          inversion Hkt. cbn [snd]. now apply (Hkv (S level)). }
        rewrite Forall_forall in *. intros kt Hin. apply plain_item_text.
        apply Hplain. now apply (Permutation_in _ (sort_items_perm ts)).
      * apply Forall_app. split; [apply plain_newline_indent|plain_list].
Qed.

Local Close Scope N_scope.

Lemma json_dumps_bytes v text :
  json_dumps v = Some text -> exists bytes, text_to_bytes text = Some bytes.
Proof.
  intros H. apply plain_encode in H.
  destruct (read_back text H) as [bytes [Hb _]]. now exists bytes.
Qed.



Lemma save_data_encoded s text :
  json_dumps (stock_of s) = Some text ->
  exists s0 message,
    save_data s = (Returned tt, logged message s0)
    /\ fst s0 = fst s /\ tick (snd s0) = tick (snd s)
    /\ clock (snd s0) = clock (snd s)
    /\ (message = msg_saved (file (fst s))
        \/ exists m, message = msg_save_error (OSError m)).
Proof.
  intros Hdump. rewrite save_data_run. cbv zeta. rewrite Hdump.
  destruct (json_dumps_bytes _ _ Hdump) as [bytes ->].
  destruct (fs (snd s) (file (fst s))) as [[|]|content r [|]| |error];
    try destruct (write_limit (snd s)) as [n|];
    try destruct (n <? List.length bytes)%nat;
    eexists; eexists; (split; [reflexivity|]); repeat split;
    solve [now left | right; eexists; reflexivity].
Qed.



(** ** The constructor and [main] *)

Lemma path_text_default : path_text (lit "inventory.json") = lit "inventory.json".
Proof. reflexivity. Qed.



Lemma demo_run (p : str) (e0 : fstring) (w : World) :
  let r := demo (mkInventory p (PDict []) [e0], w) in
  fst r = Returned tt
  /\ stock_of (snd r) = PDict demo_stock
  /\ file (fst (snd r)) = p
  /\ List.length (logs_of (snd r)) = 7%nat
  /\ fs (snd (snd r)) = fs w
  /\ write_limit (snd (snd r)) = write_limit w.
Proof. vm_compute. repeat split. Qed.

Lemma demo_stock_text :
  json_dumps (PDict demo_stock)
  = Some (object_text [(apple, 7); (banana, 5); (pear, 2)]).
Proof. exact (json_dumps_as_dict [(apple, 7); (banana, 5); (pear, 2)]). Qed.

(** X21. In every world where the file [inventory.json] does not exist,
    whatever the clock, the other files and the room on the device, [main]
    ends normally: the stock is then apple 7, banana 5 and pear 2, the log
    has eight entries, and no file other than [inventory.json] has
    changed.  That holds also when the file cannot be created or the device
    is full: the error of [save_data] is logged and not raised. *)
Theorem main_ends_normally_without_a_file (w : World) (c : bool) :
  fs w (lit "inventory.json") = Missing c ->
  exists s,
    main w = (Returned tt, s)
    /\ stock_of s = PDict demo_stock
    /\ List.length (logs_of s) = 8%nat
    /\ forall q, q <> lit "inventory.json" -> fs (snd s) q = fs w q.
Proof.
  intros Hmissing. unfold main, __init__. rewrite load_data_run.
  cbn [fst snd file Path]. rewrite path_text_default, Hmissing.
  change (with_inventory
            (add_item (PStr (lit "apple")) (PInt 10) ;;;
             add_item (PStr (lit "banana")) (PInt 5) ;;;
             add_item (PStr (lit "pear")) (PInt 2) ;;;
             remove_item (PStr (lit "apple")) (PInt 3) ;;;
             remove_item (PStr (lit "orange")) (PInt 1) ;;;
             q <- get_qty (PStr (lit "apple")) ;;
             print [Lit (0x0A%N :: lit "Apple stock: "); Fmt q] ;;;
             check_low_items default_threshold ;;;
             print_data))
    with (with_inventory demo).
  set (s0 := logged msg_fresh (mkInventory (lit "inventory.json") (PDict []) [], w)).
  pose proof (demo_run (lit "inventory.json")
                (entry_of msg_fresh (new_inventory w)) (snd s0)) as Hdemo.
  cbv zeta in Hdemo.
  change (mkInventory (lit "inventory.json") (PDict [])
            [entry_of msg_fresh (new_inventory w)], snd s0)
    with s0 in Hdemo.
  unfold with_inventory, __enter__. unfold bind at 1.
  destruct (demo s0) as [r s1]. cbn [fst snd] in Hdemo.
  destruct Hdemo as (-> & Hstock & Hfile & Hlen & Hfs & Hwl).
  assert (Hdump : json_dumps (stock_of s1)
                  = Some (object_text [(apple, 7); (banana, 5); (pear, 2)])).
  { rewrite Hstock. exact demo_stock_text. }
  destruct (save_data_encoded s1 _ Hdump) as [s' [m [Hsave [Hself _]]]].
  pose proof (other_files_kept_save_data s1) as [_ Hkept].
  rewrite Hsave in Hkept. cbn [snd] in Hkept.
  unfold __exit__, bind. rewrite Hsave.
  exists (logged m s'). split; [reflexivity|].
  unfold stock_of, logs_of, logged in *. cbn [fst snd stock_data logs fs] in *.
  rewrite Hself. split; [exact Hstock|]. split.
  - rewrite length_app, Hlen. reflexivity.
  - intros q Hq. rewrite Hkept by (rewrite Hfile; exact Hq).
    now rewrite Hfs.
Qed.

Lemma main_ends_normally_without_a_file_witness :
  exists s,
    main (mkWorld (fun _ => Missing false) (Some 0%nat) 0
                  (fun _ => lit "2025-01-01 00:00:00") [])
    = (Returned tt, s)
    /\ stock_of s = PDict demo_stock
    /\ List.length (logs_of s) = 8%nat
    /\ forall q, q <> lit "inventory.json" ->
                 fs (snd s) q = Missing false.
Proof.
  apply (main_ends_normally_without_a_file
           (mkWorld (fun _ => Missing false) (Some 0%nat) 0
                    (fun _ => lit "2025-01-01 00:00:00") []) false).
  reflexivity.
Defined.

(** ** The items that are low *)

Lemma NoDup_keys_filter (f : str * pyval -> bool) (d : dict) :
  dict_wf d -> NoDup (dict_keys (filter f d)).
Proof.
  unfold dict_wf, dict_keys. induction d as [|kv d IH]; cbn [List.map filter].
  - intros _. constructor.
  - intros Hnd. inversion Hnd as [|k ks Hnew Hrest]; subst.
    destruct (f kv); [|now apply IH]. cbn [List.map]. constructor.
    + intros Hin. apply Hnew. apply in_map_iff in Hin.
      destruct Hin as [x [Hx Hin]]. apply filter_In in Hin.
      apply in_map_iff. exists x. tauto.
    + now apply IH.
Qed.

(** X22. On a stock of integers [check_low_items] returns the names in the
    order of the stock, each once, and logs one entry: the names joined by
    commas, or [No low-stock items detected.] when there is none.  Raising
    the threshold never takes a name out of the answer, and no item of a
    stock of positive quantities is below a threshold of 1 or less. *)
Theorem check_low_items_reports_in_stock_order (s : Sys) (d : dict) (t : Z) :
  stock_of s = PDict d -> quantities d ->
  check_low_items t s
  = (Returned (low_names d t), logged (msg_low (low_names d t)) s)
  /\ (dict_wf d -> NoDup (low_names d t))
  /\ (forall t', t <= t' -> incl (low_names d t) (low_names d t'))
  /\ (positive d -> t <= 1 -> low_names d t = []).
Proof.
  intros Hd Hq. split; [|split; [|split]].
  - unfold check_low_items, bind, get_stock, lift. cbn [fst snd].
    unfold stock_of in Hd. rewrite Hd, (low_items_run d t Hq).
    destruct (low_names d t); unfold msg_low; rewrite _log_run; reflexivity.
  - intros Hwf. now apply NoDup_keys_filter.
  - intros t' Ht k Hin. apply In_low_names in Hin. apply In_low_names.
    destruct Hin as [q [Hin Hlt]]. exists q. split; [exact Hin|lia].
  - intros Hpos Ht. destruct (low_names d t) as [|k low] eqn:Hlow;
      [reflexivity|].
    assert (Hin : In k (low_names d t)) by (rewrite Hlow; now left).
    apply In_low_names in Hin. destruct Hin as [q [Hin Hlt]].
    destruct (Hpos k (PInt q) Hin) as [z [Hz Hp]]. inversion Hz. lia.
Qed.

Lemma check_low_items_reports_in_stock_order_witness :
  check_low_items 6 example_state
  = (Returned (low_names example_stock 6),
     logged (msg_low (low_names example_stock 6)) example_state)
  /\ (dict_wf example_stock -> NoDup (low_names example_stock 6))
  /\ (forall t', 6 <= t' ->
                 incl (low_names example_stock 6) (low_names example_stock t'))
  /\ (positive example_stock -> 6 <= 1 -> low_names example_stock 6 = []).
Proof.
  apply (check_low_items_reports_in_stock_order example_state example_stock 6).
  - reflexivity.
  - exact example_stock_quantities.
Defined.

(** ** The invariant of the stock and the other methods *)





(** ** From one session to the next *)









(** ** [remove_item] on a stock that is not a dictionary *)

(** X25. [remove_item] on a stock that is not a dictionary, with valid
    arguments.  On [null], a boolean or a number the membership test raises
    [TypeError].  On a string the test is a substring test and on an array
    a membership test: when the name is not found the call only logs that
    the item was not found, and when it is found indexing the stock with
    the name raises [TypeError].  The stock is never changed. *)
Theorem remove_item_on_other_values (s : Sys) (k : str) (qty : pyval) (q : Z) :
  (forall d, stock_of s <> PDict d) ->
  strip k <> [] -> int_value qty = Some q -> 0 < q ->
  remove_item (PStr k) qty s
  = match stock_of s with
    | PStr _ | PList _ =>
        if found_in k (stock_of s)
        then (Raised (TypeError "indices must be integers"), s)
        else (Returned tt, logged (msg_not_found (PStr k)) s)
    | _ => (Raised (TypeError "argument is not iterable"), s)
    end.
Proof.
  intros Hnot Hk Hv Hq. unfold remove_item, bind.
  rewrite (validate_ok k qty q) by assumption.
  unfold get_stock, lift. cbn [negb fst snd]. unfold stock_of in *.
  destruct (stock_data (fst s)) eqn:Hstock;
    try (exfalso; now apply (Hnot d)); cbn [py_contains found_in];
    try reflexivity.
  - destruct (is_substring k s0); cbn [negb py_getitem];
      [reflexivity|now rewrite _log_run].
  - match goal with |- context [existsb ?f l] => destruct (existsb f l) end;
      cbn [negb py_getitem]; [reflexivity|now rewrite _log_run].
Qed.

Lemma remove_item_on_other_values_witness :
  let s := with_stock (PStr (lit "pineapple")) (new_inventory empty_world) in
  remove_item (PStr apple) (PInt 1) s
  = (Raised (TypeError "indices must be integers"), s).
Proof.
  intros s.
  apply (remove_item_on_other_values s apple (PInt 1) 1).
  - discriminate.
  - discriminate.
  - reflexivity.
  - lia.
Defined.

(** ** What the persistence methods do in every case *)






